(** * RUVA backend: a shallow embedding of [main.py] and [schemas.py]

    The HTTP handlers of [main.py] are embedded as finite command trees over
    the two operations of the document store adapter, [get_documents] and
    [create_document].  A command tree can be run to completion against a
    store (one request served on its own), or advanced one store operation
    at a time next to other requests in flight.

    Python dictionaries are finite maps from field names to values, the
    pydantic models of [schemas.py] are records, and an exception raised by a
    handler is a value of type [exn]. *)

From Stdlib Require Import ZArith QArith Qcanon.
From stdpp Require Import base numbers strings list gmap fin_maps pretty.

Local Open Scope string_scope.
Local Open Scope list_scope.
Local Open Scope stdpp_scope.

(** ** Values and documents *)

(** What a field of a stored document or of a request body can hold. *)
Inductive value : Type :=
| VNone
| VBool (b : bool)
| VInt (z : Z)
| VFloat (q : Qc)
| VStr (s : string)
| VList (l : list string).

Global Instance value_eq_dec : EqDecision value.
Proof. solve_decision. Defined.

(** A Python [Dict[str, Any]]. *)
Abbreviation doc := (gmap string value).

(** [d.get(k)] where an absent key reads as [None]. *)
Definition get (d : doc) (k : string) : value := default VNone (d !! k).

(** A document as the store hands it back: the fields that were inserted,
    and the identifier the store assigned (Python sees it under ["_id"]). *)
Record stored : Type := Stored { oid : nat; fields : doc }.

Global Instance stored_eq_dec : EqDecision stored.
Proof. solve_decision. Defined.

(** [str(_id)]: the string form of a store identifier. *)
Definition str_oid (n : nat) : string := pretty n.

(** ** Exceptions and outcomes *)

Inductive exn : Type :=
| HTTPException (status_code : nat) (detail : string)
| Exception (msg : string)
| KeyError (key : string)
| ValidationError (msg : string).

Global Instance exn_eq_dec : EqDecision exn.
Proof. solve_decision. Defined.

(** [str(e)] *)
Definition str_exn (e : exn) : string :=
  match e with
  | HTTPException c d => pretty c +:+ ": " +:+ d
  | Exception m => m
  | KeyError k => "'" +:+ k +:+ "'"
  | ValidationError m => m
  end.

(** How a call ends: it returns, or an exception leaves it. *)
Inductive outcome (A : Type) : Type :=
| Returned (a : A)
| Raised (e : exn).
Arguments Returned {A} a.
Arguments Raised {A} e.

(** ** The document store *)

Record Store : Type := {
  collections : gmap string (list stored);
  next_oid : nat
}.

Definition empty_store : Store := {| collections := ∅; next_oid := 0 |}.

(** The documents of one collection, oldest first. *)
Definition collection (c : string) (s : Store) : list stored :=
  default [] (collections s !! c).

(** Exact match of every field of the filter. *)
Definition matches (flt : doc) (d : stored) : Prop :=
  map_Forall (λ k v, fields d !! k = Some v) flt.

Global Instance matches_dec flt d : Decision (matches flt d).
Proof. unfold matches. apply _. Defined.

(** Modelled from the spec: the query of [database.get_documents], absent
    from the sources.  An exact-match filter query capped at [limit]
    results, in the store's natural (insertion) order. *)
Definition find (c : string) (flt : doc) (limit : nat) (s : Store) : list stored :=
  take limit (filter (matches flt) (collection c s)).

(** Modelled from the spec: the insert of [database.create_document], absent
    from the sources.  One insert; the record gets a newly assigned
    identifier, whose string form is returned. *)
Definition insert_one (c : string) (r : doc) (s : Store) : string * Store :=
  (str_oid (next_oid s),
   {| collections := <[c := collection c s ++ [Stored (next_oid s) r]]> (collections s);
      next_oid := S (next_oid s) |}).

(** ** Handlers as command trees *)

(** What the store answers to one operation. *)
Inductive reply (X : Type) : Type :=
| Failed (msg : string)
| Done (x : X).
Arguments Failed {X} msg.
Arguments Done {X} x.

Inductive prog (A : Type) : Type :=
| Return (a : A)
| Raise (e : exn)
| GetDocuments (c : string) (flt : doc) (limit : nat) (k : reply (list stored) → prog A)
| CreateDocument (c : string) (r : doc) (k : reply string → prog A).
Arguments Return {A} a.
Arguments Raise {A} e.
Arguments GetDocuments {A} c flt limit k.
Arguments CreateDocument {A} c r k.

Fixpoint bind {A B : Type} (p : prog A) (f : A → prog B) : prog B :=
  match p with
  | Return a => f a
  | Raise e => Raise e
  | GetDocuments c flt limit k => GetDocuments c flt limit (λ x, bind (k x) f)
  | CreateDocument c r k => CreateDocument c r (λ x, bind (k x) f)
  end.

Global Instance prog_ret : MRet prog := λ A a, Return a.
Global Instance prog_bind : MBind prog := λ A B f p, bind p f.

(** [try: p except Exception as e: h e].  Every exception of [exn] is an
    [Exception] in Python. *)
Fixpoint try_except {A : Type} (p : prog A) (h : exn → prog A) : prog A :=
  match p with
  | Return a => Return a
  | Raise e => h e
  | GetDocuments c flt limit k => GetDocuments c flt limit (λ x, try_except (k x) h)
  | CreateDocument c r k => CreateDocument c r (λ x, try_except (k x) h)
  end.

(** A pure computation that may raise, used inside a handler. *)
Definition lift {A : Type} (o : outcome A) : prog A :=
  match o with
  | Returned a => Return a
  | Raised e => Raise e
  end.

(** Modelled from the spec: [database.get_documents] and
    [database.create_document], absent from the sources.  Each is one store
    operation, and fails with the store's message when the store cannot
    complete it. *)
Definition get_documents (c : string) (flt : doc) (limit : nat) : prog (list stored) :=
  GetDocuments c flt limit
    (λ x, match x with Failed m => Raise (Exception m) | Done ds => Return ds end).

Definition create_document (c : string) (r : doc) : prog string :=
  CreateDocument c r
    (λ x, match x with Failed m => Raise (Exception m) | Done i => Return i end).

(** ** Running one request to completion *)

(** The store together with what will go wrong: [outages] says, for each
    coming store operation in turn, whether it fails and with what message.
    Past the end of the list every operation succeeds. *)
Record World : Type := {
  db : Store;
  outages : list (option string)
}.

Definition available (w : World) : Prop := outages w = [].

Fixpoint run {A : Type} (p : prog A) (w : World) : outcome A * World :=
  match p with
  | Return a => (Returned a, w)
  | Raise e => (Raised e, w)
  | GetDocuments c flt limit k =>
      match outages w with
      | Some m :: os => run (k (Failed m)) {| db := db w; outages := os |}
      | os => run (k (Done (find c flt limit (db w))))
                  {| db := db w; outages := tail os |}
      end
  | CreateDocument c r k =>
      match outages w with
      | Some m :: os => run (k (Failed m)) {| db := db w; outages := os |}
      | os => let '(i, s) := insert_one c r (db w) in
              run (k (Done i)) {| db := s; outages := tail os |}
      end
  end.

(** ** Record schemas ([schemas.py]) *)

(** [Literal["free", "weekly", "monthly", "yearly"]] *)
Inductive Plan : Type := free | weekly | monthly | yearly.

Definition Plan_str (p : Plan) : string :=
  match p with
  | free => "free"
  | weekly => "weekly"
  | monthly => "monthly"
  | yearly => "yearly"
  end.

(** An [Optional] field in a dumped record. *)
Definition dump_opt {A : Type} (f : A → value) (o : option A) : value :=
  match o with
  | Some a => f a
  | None => VNone
  end.

Module User.
Record t : Type := mk {
  email : string;
  password_hash : string;
  is_guest : bool;
  plan : Plan
}.

Definition model_dump (u : t) : doc :=
  <["email" := VStr (email u)]>
  (<["password_hash" := VStr (password_hash u)]>
  (<["is_guest" := VBool (is_guest u)]>
  (<["plan" := VStr (Plan_str (plan u))]> ∅))).
End User.

Module UserInput.
Record t : Type := mk {
  user_id : string;
  face_photo_url : option string;
  height_cm : option Z;
  weight_kg : option Qc;
  age : option Z;
  goals : option string;
  style_vibe : option string
}.

(** [Field(None, ge=lo, le=hi)] on an optional integer. *)
Definition int_field_ok (lo hi : Z) (o : option Z) : bool :=
  match o with
  | None => true
  | Some v => bool_decide (lo ≤ v)%Z && bool_decide (v ≤ hi)%Z
  end.

(** [Field(None, ge=lo, le=hi)] on an optional float. *)
Definition float_field_ok (lo hi : Z) (o : option Qc) : bool :=
  match o with
  | None => true
  | Some v => bool_decide (Qc_of_Z lo ≤ v)%Qc && bool_decide (v ≤ Qc_of_Z hi)%Qc
  end.

Definition height_cm_ok (b : t) : bool := int_field_ok 100 250 (height_cm b).
Definition weight_kg_ok (b : t) : bool := float_field_ok 30 250 (weight_kg b).
Definition age_ok (b : t) : bool := int_field_ok 13 100 (age b).

(** The fields whose constraints a body breaks, in declaration order. *)
Definition errors (b : t) : list string :=
  (if height_cm_ok b then [] else ["height_cm"]) ++
  (if weight_kg_ok b then [] else ["weight_kg"]) ++
  (if age_ok b then [] else ["age"]).

Definition model_dump (b : t) : doc :=
  <["user_id" := VStr (user_id b)]>
  (<["face_photo_url" := dump_opt VStr (face_photo_url b)]>
  (<["height_cm" := dump_opt VInt (height_cm b)]>
  (<["weight_kg" := dump_opt VFloat (weight_kg b)]>
  (<["age" := dump_opt VInt (age b)]>
  (<["goals" := dump_opt VStr (goals b)]>
  (<["style_vibe" := dump_opt VStr (style_vibe b)]> ∅)))))).
End UserInput.

Module AnalysisSummary.
Record t : Type := mk {
  user_id : string;
  face_summary : string;
  physique_summary : string;
  style_summary : string;
  outfit_summary : string
}.

Definition model_dump (a : t) : doc :=
  <["user_id" := VStr (user_id a)]>
  (<["face_summary" := VStr (face_summary a)]>
  (<["physique_summary" := VStr (physique_summary a)]>
  (<["style_summary" := VStr (style_summary a)]>
  (<["outfit_summary" := VStr (outfit_summary a)]> ∅)))).
End AnalysisSummary.

Module LookmaxxingDetail.
Record t : Type := mk {
  user_id : string;
  face_shape : string;
  strong_features : list string;
  weak_features : list string;
  grooming : list string;
  hairstyle : list string;
  accessories : list string
}.

Definition model_dump (f : t) : doc :=
  <["user_id" := VStr (user_id f)]>
  (<["face_shape" := VStr (face_shape f)]>
  (<["strong_features" := VList (strong_features f)]>
  (<["weak_features" := VList (weak_features f)]>
  (<["grooming" := VList (grooming f)]>
  (<["hairstyle" := VList (hairstyle f)]>
  (<["accessories" := VList (accessories f)]> ∅)))))).
End LookmaxxingDetail.

Module PhysiquePlan.
Record t : Type := mk {
  user_id : string;
  body_type : string;
  workout_7_day : list string;
  posture_cues : list string;
  diet_notes : list string
}.

Definition model_dump (p : t) : doc :=
  <["user_id" := VStr (user_id p)]>
  (<["body_type" := VStr (body_type p)]>
  (<["workout_7_day" := VList (workout_7_day p)]>
  (<["posture_cues" := VList (posture_cues p)]>
  (<["diet_notes" := VList (diet_notes p)]> ∅)))).
End PhysiquePlan.

Module StylingPlan.
Record t : Type := mk {
  user_id : string;
  daily_outfits : list string;
  colours : list string;
  wardrobe_essentials : list string;
  hairstyle_synergy : list string
}.

Definition model_dump (s : t) : doc :=
  <["user_id" := VStr (user_id s)]>
  (<["daily_outfits" := VList (daily_outfits s)]>
  (<["colours" := VList (colours s)]>
  (<["wardrobe_essentials" := VList (wardrobe_essentials s)]>
  (<["hairstyle_synergy" := VList (hairstyle_synergy s)]> ∅)))).
End StylingPlan.

Module GlowUpPlan.
Record t : Type := mk {
  user_id : string;
  week_by_week : list string
}.

Definition model_dump (g : t) : doc :=
  <["user_id" := VStr (user_id g)]>
  (<["week_by_week" := VList (week_by_week g)]> ∅).
End GlowUpPlan.

(** ** Plan generators ([main.py]) *)

(** [data["user_id"]] handed to a [user_id: str] field: a missing key is a
    [KeyError], a value that is not a string fails the model's validation. *)
Definition user_id_of (model : string) (data : doc) : outcome string :=
  match data !! "user_id" with
  | None => Raised (KeyError "user_id")
  | Some (VStr u) => Returned u
  | Some _ => Raised (ValidationError (model +:+ ": user_id: Input should be a valid string"))
  end.

Definition fmap_outcome {A B : Type} (f : A → B) (o : outcome A) : outcome B :=
  match o with
  | Returned a => Returned (f a)
  | Raised e => Raised e
  end.

Definition make_face_analysis (data : doc) : outcome LookmaxxingDetail.t :=
  fmap_outcome
    (λ u, {| LookmaxxingDetail.user_id := u;
             LookmaxxingDetail.face_shape := "oval";
             LookmaxxingDetail.strong_features := ["defined jawline"];
             LookmaxxingDetail.weak_features := ["under-eye puffiness"];
             LookmaxxingDetail.grooming := ["weekly exfoliation"; "SPF 50 daily"];
             LookmaxxingDetail.hairstyle := ["medium length textured crop"];
             LookmaxxingDetail.accessories := ["thin metal frames"; "minimalist studs"] |})
    (user_id_of "LookmaxxingDetail" data).

Definition make_physique_plan (data : doc) : outcome PhysiquePlan.t :=
  fmap_outcome
    (λ u, {| PhysiquePlan.user_id := u;
             PhysiquePlan.body_type := "athletic";
             PhysiquePlan.workout_7_day :=
               ["Push strength";
                "Pull strength";
                "Legs + core";
                "Active recovery (walk + mobility)";
                "Upper hypertrophy";
                "Lower hypertrophy";
                "Rest + stretch"];
             PhysiquePlan.posture_cues := ["neck long"; "ribs down"; "glutes on"];
             PhysiquePlan.diet_notes :=
               ["high protein"; "2L water"; "500 kcal deficit (if fat loss)"] |})
    (user_id_of "PhysiquePlan" data).

Definition make_styling_plan (data : doc) : outcome StylingPlan.t :=
  fmap_outcome
    (λ u, {| StylingPlan.user_id := u;
             StylingPlan.daily_outfits :=
               ["monochrome black smart-casual"; "cream knit + tapered chinos"];
             StylingPlan.colours := ["cream"; "black"; "light gold"];
             StylingPlan.wardrobe_essentials :=
               ["white sneakers"; "dark denim"; "oxford shirt"];
             StylingPlan.hairstyle_synergy := ["texture complements jawline"] |})
    (user_id_of "StylingPlan" data).

Definition make_glow_up (data : doc) : outcome GlowUpPlan.t :=
  fmap_outcome
    (λ u, {| GlowUpPlan.user_id := u;
             GlowUpPlan.week_by_week :=
               ["Week 1: skin baseline + haircut";
                "Week 2: posture daily 10m + wardrobe audit";
                "Week 3: gym routine locked";
                "Week 4: social refresh (bio/photos)";
                "Weeks 5-12: progressions + photos"] |})
    (user_id_of "GlowUpPlan" data).

(** [sep.join(l)] *)
Fixpoint join (sep : string) (l : list string) : string :=
  match l with
  | [] => ""
  | x :: l' =>
      match l' with
      | [] => x
      | _ :: _ => x +:+ sep +:+ join sep l'
      end
  end.

Definition make_summary (face : LookmaxxingDetail.t) (phys : PhysiquePlan.t)
    (style : StylingPlan.t) : AnalysisSummary.t :=
  {| AnalysisSummary.user_id := LookmaxxingDetail.user_id face;
     AnalysisSummary.face_summary :=
       "Face shape " +:+ LookmaxxingDetail.face_shape face +:+ "; groom: "
         +:+ join ", " (LookmaxxingDetail.grooming face);
     AnalysisSummary.physique_summary :=
       "Body " +:+ PhysiquePlan.body_type phys +:+ "; posture: "
         +:+ join ", " (PhysiquePlan.posture_cues phys);
     AnalysisSummary.style_summary :=
       "Colours: " +:+ join ", " (StylingPlan.colours style);
     AnalysisSummary.outfit_summary :=
       "Outfits: " +:+ join ", " (StylingPlan.daily_outfits style) |}.

(** ** Request models and responses ([main.py]) *)

Module SignupRequest.
Record t : Type := mk { email : string; password : string }.
End SignupRequest.

Module LoginRequest.
Record t : Type := mk { email : string; password : string }.
End LoginRequest.

Module GuestLoginRequest.
Record t : Type := mk { email : string }.
End GuestLoginRequest.

Module WorkflowRequest.
Record t : Type := mk { user_id : string }.
End WorkflowRequest.

(** A member of a JSON response: a plain value or a nested object. *)
Inductive json : Type :=
| JValue (v : value)
| JObject (d : doc).

Global Instance json_eq_dec : EqDecision json.
Proof. solve_decision. Defined.

Abbreviation response := (gmap string json).

(** [except Exception as e: raise HTTPException(status_code=500, detail=str(e))] *)
Definition internal_error {A : Type} (e : exn) : prog A :=
  Raise (HTTPException 500 (str_exn e)).

(** ** Authentication *)

Definition signup (payload : SignupRequest.t) : prog response :=
  existing ← try_except
    (get_documents "user" {["email" := VStr (SignupRequest.email payload)]} 1)
    internal_error;
  match existing with
  | _ :: _ => Raise (HTTPException 409 "Email already exists")
  | [] =>
      let user := {| User.email := SignupRequest.email payload;
                     User.password_hash := "hash:" +:+ SignupRequest.password payload;
                     User.is_guest := false;
                     User.plan := free |} in
      user_id ← create_document "user" (User.model_dump user);
      mret (<["user_id" := JValue (VStr user_id)]>
            (<["email" := JValue (VStr (SignupRequest.email payload))]> ∅))
  end.

Definition login (payload : LoginRequest.t) : prog response :=
  users ← try_except
    (get_documents "user" {["email" := VStr (LoginRequest.email payload)]} 1)
    internal_error;
  match users with
  | [] => Raise (HTTPException 404 "User not found")
  | user :: _ =>
      if decide (get (fields user) "password_hash"
                 = VStr ("hash:" +:+ LoginRequest.password payload))
      then mret (<["user_id" := JValue (VStr (str_oid (oid user)))]>
                 (<["email" := JValue (get (fields user) "email")]> ∅))
      else Raise (HTTPException 401 "Invalid credentials")
  end.

Definition guest_login (payload : GuestLoginRequest.t) : prog response :=
  let user := {| User.email := GuestLoginRequest.email payload;
                 User.password_hash := "guest";
                 User.is_guest := true;
                 User.plan := free |} in
  user_id ← create_document "user" (User.model_dump user);
  mret (<["user_id" := JValue (VStr user_id)]>
        (<["email" := JValue (VStr (GuestLoginRequest.email payload))]>
        (<["guest" := JValue (VBool true)]> ∅))).

(** ** User input *)

Definition save_user_input (data : UserInput.t) : prog response :=
  doc_id ← create_document "userinput" (UserInput.model_dump data);
  mret (<["input_id" := JValue (VStr doc_id)]> ∅).

(** The route [POST /input]: the body is validated against [UserInput]
    before the handler is called; a body that breaks a constraint is
    answered with 422 and the names of the offending fields. *)
Definition post_input (body : UserInput.t) : prog response :=
  match UserInput.errors body with
  | [] => save_user_input body
  | errs => Raise (HTTPException 422 (join ", " errs))
  end.

(** ** Workflow *)

(** [inputs[0] if inputs else {"user_id": req.user_id}] *)
Definition workflow_base (req : WorkflowRequest.t) (inputs : list stored) : doc :=
  match inputs with
  | d :: _ => fields d
  | [] => {["user_id" := VStr (WorkflowRequest.user_id req)]}
  end.

Definition run_workflow (req : WorkflowRequest.t) : prog response :=
  inputs ← try_except
    (get_documents "userinput" {["user_id" := VStr (WorkflowRequest.user_id req)]} 1)
    internal_error;
  let base := workflow_base req inputs in
  face ← lift (make_face_analysis base);
  phys ← lift (make_physique_plan base);
  style ← lift (make_styling_plan base);
  glow ← lift (make_glow_up base);
  let summary := make_summary face phys style in
  _ ← create_document "lookmaxxingdetail" (LookmaxxingDetail.model_dump face);
  _ ← create_document "physiqueplan" (PhysiquePlan.model_dump phys);
  _ ← create_document "stylingplan" (StylingPlan.model_dump style);
  _ ← create_document "glowupplan" (GlowUpPlan.model_dump glow);
  _ ← create_document "analysissummary" (AnalysisSummary.model_dump summary);
  mret (<["summary" := JObject (AnalysisSummary.model_dump summary)]>
        (<["face" := JObject (LookmaxxingDetail.model_dump face)]>
        (<["physique" := JObject (PhysiquePlan.model_dump phys)]>
        (<["styling" := JObject (StylingPlan.model_dump style)]>
        (<["glow" := JObject (GlowUpPlan.model_dump glow)]> ∅))))).

Definition get_latest_summary (user_id : string) : prog response :=
  docs ← try_except
    (get_documents "analysissummary" {["user_id" := VStr user_id]} 1)
    internal_error;
  match docs with
  | [] => Raise (HTTPException 404 "No summary yet")
  | d :: _ => mret (<["_id" := JValue (VStr (str_oid (oid d)))]> (JValue <$> fields d))
  end.

(** ** Requests in flight *)

Inductive request : Type :=
| POST_auth_signup (payload : SignupRequest.t)
| POST_auth_login (payload : LoginRequest.t)
| POST_auth_guest (payload : GuestLoginRequest.t)
| POST_input (body : UserInput.t)
| POST_workflow_run (req : WorkflowRequest.t)
| GET_summary (user_id : string).

Definition serve (r : request) : prog response :=
  match r with
  | POST_auth_signup payload => signup payload
  | POST_auth_login payload => login payload
  | POST_auth_guest payload => guest_login payload
  | POST_input body => post_input body
  | POST_workflow_run req => run_workflow req
  | GET_summary user_id => get_latest_summary user_id
  end.

(** The server between two store operations: the store, the requests being
    handled (each one the rest of its handler), and the responses sent. *)
Record config : Type := {
  store : Store;
  pool : list (prog response);
  sent : list (outcome response)
}.

Definition idle (s : Store) : config := {| store := s; pool := []; sent := [] |}.

Inductive event : Type :=
| Arrive (r : request)
| Advance (i : nat) (fault : option string).

(** One request arrives, or the handler of the [i]-th request in flight
    performs its next store operation (atomically) or delivers its response. *)
Definition step (c : config) (e : event) : config :=
  match e with
  | Arrive r => {| store := store c; pool := pool c ++ [serve r]; sent := sent c |}
  | Advance i fault =>
      match pool c !! i with
      | None => c
      | Some (Return a) =>
          {| store := store c; pool := delete i (pool c); sent := sent c ++ [Returned a] |}
      | Some (Raise e) =>
          {| store := store c; pool := delete i (pool c); sent := sent c ++ [Raised e] |}
      | Some (GetDocuments col flt limit k) =>
          let x := match fault with
                   | Some m => Failed m
                   | None => Done (find col flt limit (store c))
                   end in
          {| store := store c; pool := <[i := k x]> (pool c); sent := sent c |}
      | Some (CreateDocument col r k) =>
          match fault with
          | Some m => {| store := store c; pool := <[i := k (Failed m)]> (pool c);
                         sent := sent c |}
          | None => let '(id, s) := insert_one col r (store c) in
                    {| store := s; pool := <[i := k (Done id)]> (pool c); sent := sent c |}
          end
      end
  end.

Definition steps (c : config) (es : list event) : config := foldl step c es.

(** A store the server can be left with, started empty. *)
Definition reachable (s : Store) : Prop :=
  ∃ es, store (steps (idle empty_store) es) = s.

(** Requests served one after the other, each to completion. *)
Fixpoint run_all (ps : list (prog response)) (w : World)
    : list (outcome response) * World :=
  match ps with
  | [] => ([], w)
  | p :: ps' =>
      let '(o, w1) := run p w in
      let '(os, w2) := run_all ps' w1 in
      (o :: os, w2)
  end.


(** The world once the next store operation has been answered. *)
Definition answered (w : World) : World :=
  {| db := db w; outages := tail (outages w) |}.

(** ** Sample data *)

(** Two stored inputs of one user that differ in every other field. *)
Definition input_a : doc :=
  UserInput.model_dump
    (UserInput.mk "u1" (Some "http://img/a.png") (Some 180%Z) (Some (Qc_of_Z 75))
       (Some 25%Z) (Some "lean") (Some "classic")).

Definition input_b : doc :=
  UserInput.model_dump (UserInput.mk "u1" None (Some 160%Z) None (Some 40%Z) None None).

Definition face_u1 : LookmaxxingDetail.t :=
  match make_face_analysis {["user_id" := VStr "u1"]} with
  | Returned f => f
  | Raised _ => LookmaxxingDetail.mk "" "" [] [] [] [] []
  end.

Definition phys_u1 : PhysiquePlan.t :=
  match make_physique_plan {["user_id" := VStr "u1"]} with
  | Returned p => p
  | Raised _ => PhysiquePlan.mk "" "" [] [] []
  end.

Definition style_u1 : StylingPlan.t :=
  match make_styling_plan {["user_id" := VStr "u1"]} with
  | Returned p => p
  | Raised _ => StylingPlan.mk "" [] [] [] []
  end.


(** A store that answers every operation, with nothing in it yet. *)
Definition fresh_world : World := {| db := empty_store; outages := [] |}.

(** Request bodies at and just outside the bounds of [UserInput]. *)
Definition body_at_lower_bounds : UserInput.t :=
  UserInput.mk "u1" None (Some 100%Z) (Some (Qc_of_Z 30)) (Some 13%Z) None None.

Definition body_at_upper_bounds : UserInput.t :=
  UserInput.mk "u1" None (Some 250%Z) (Some (Qc_of_Z 250)) (Some 100%Z) None None.

Definition body_height_99 : UserInput.t :=
  UserInput.mk "u1" None (Some 99%Z) None None None None.

(** Two people signing up, and a guest using the first one's address. *)
Definition alice : SignupRequest.t := SignupRequest.mk "alice@example.com" "s3cret".
Definition bob : SignupRequest.t := SignupRequest.mk "bob@example.com" "hunter2".
Definition alice_login : LoginRequest.t := LoginRequest.mk "alice@example.com" "s3cret".
Definition alice_guest : GuestLoginRequest.t := GuestLoginRequest.mk "alice@example.com".

(** ** What a workflow run writes and returns *)

(** The five records of a workflow run with the collections they go to, in
    the order of the five [create_document] calls of [run_workflow]. *)
Definition workflow_documents (face : LookmaxxingDetail.t) (phys : PhysiquePlan.t)
    (style : StylingPlan.t) (glow : GlowUpPlan.t) : list (string * doc) :=
  [("lookmaxxingdetail", LookmaxxingDetail.model_dump face);
   ("physiqueplan", PhysiquePlan.model_dump phys);
   ("stylingplan", StylingPlan.model_dump style);
   ("glowupplan", GlowUpPlan.model_dump glow);
   ("analysissummary", AnalysisSummary.model_dump (make_summary face phys style))].

(** The JSON payload of a workflow run. *)
Definition workflow_response (face : LookmaxxingDetail.t) (phys : PhysiquePlan.t)
    (style : StylingPlan.t) (glow : GlowUpPlan.t) : response :=
  <["summary" := JObject (AnalysisSummary.model_dump (make_summary face phys style))]>
  (<["face" := JObject (LookmaxxingDetail.model_dump face)]>
  (<["physique" := JObject (PhysiquePlan.model_dump phys)]>
  (<["styling" := JObject (StylingPlan.model_dump style)]>
  (<["glow" := JObject (GlowUpPlan.model_dump glow)]> ∅)))).

(** The store after a row of inserts that all succeed. *)
Definition insert_all (docs : list (string * doc)) (s : Store) : Store :=
  foldl (λ s' d, (insert_one d.1 d.2 s').2) s docs.

(** A row of [create_document] calls with no handler around them: the first
    one the store fails ends the row with the store's message. *)
Fixpoint write_all (docs : list (string * doc)) (w : World) : option string * World :=
  match docs with
  | [] => (None, w)
  | d :: docs' =>
      match outages w with
      | Some m :: os => (Some m, {| db := db w; outages := os |})
      | os => write_all docs' {| db := (insert_one d.1 d.2 (db w)).2; outages := tail os |}
      end
  end.

(** Two inputs of one user, the second submitted after the first. *)
Definition first_input : UserInput.t :=
  UserInput.mk "u1" None (Some 170%Z) None (Some 20%Z) None None.

Definition second_input : UserInput.t :=
  UserInput.mk "u1" None (Some 171%Z) None (Some 30%Z) None None.

Definition two_inputs_world : World :=
  (run_all [post_input first_input; post_input second_input] fresh_world).2.

Definition glow_u1 : GlowUpPlan.t :=
  match make_glow_up {["user_id" := VStr "u1"]} with
  | Returned p => p
  | Raised _ => GlowUpPlan.mk "" []
  end.

(** A store that answers the lookup of a workflow run and its first two
    inserts, and fails the third. *)
Definition failing_third_write : World :=
  {| db := empty_store; outages := [None; None; None; Some "connection reset"] |}.

(** A signup and a guest login for the same address served at the same
    time: the signup looks the address up, the guest record is inserted,
    then the signup inserts its own record; both requests are answered. *)
Definition overlapping_requests : list event :=
  [Arrive (POST_auth_signup alice);
   Arrive (POST_auth_guest alice_guest);
   Advance 0 None;
   Advance 1 None;
   Advance 0 None;
   Advance 0 None;
   Advance 0 None].

(** A store whose next operation succeeds and whose second one fails. *)
Definition failing_second_operation : World :=
  {| db := empty_store; outages := [None; Some "connection reset"] |}.

(** A store whose next operation fails. *)
Definition failing_next_operation : World :=
  {| db := empty_store; outages := [Some "connection reset"] |}.

(** ** What a handler can write *)

(** Every insert the command tree can issue, whatever the store answers,
    is an insert of a record [r] into a collection [c] with [P c r]. *)
Fixpoint writes_only {A : Type} (P : string → doc → Prop) (p : prog A) : Prop :=
  match p with
  | Return _ => True
  | Raise _ => True
  | GetDocuments _ _ _ k => ∀ x, writes_only P (k x)
  | CreateDocument c r k => P c r ∧ ∀ x, writes_only P (k x)
  end.

(** The command tree never raises an [HTTPException]. *)
Fixpoint no_http_error {A : Type} (p : prog A) : Prop :=
  match p with
  | Return _ => True
  | Raise e => ∀ status detail, e ≠ HTTPException status detail
  | GetDocuments _ _ _ k => ∀ x, no_http_error (k x)
  | CreateDocument _ _ k => ∀ x, no_http_error (k x)
  end.

(** The command tree raises an [HTTPException] only before its first insert. *)
Fixpoint http_errors_before_writes {A : Type} (p : prog A) : Prop :=
  match p with
  | Return _ => True
  | Raise _ => True
  | GetDocuments _ _ _ k => ∀ x, http_errors_before_writes (k x)
  | CreateDocument _ _ k => ∀ x, no_http_error (k x)
  end.

(** A store property that inserts of records with [P] keep. *)
Definition kept_by (P : string → doc → Prop) (I : Store → Prop) : Prop :=
  ∀ s c r, I s → P c r → I (insert_one c r s).2.

(** Every stored document has [P] for its collection. *)
Definition store_conforms (P : string → doc → Prop) (s : Store) : Prop :=
  ∀ c d, d ∈ collection c s → P c (fields d).

(** ** The shape of stored records *)

(** A user record as [guest_login] writes it. *)
Definition guest_record (email : string) : doc :=
  User.model_dump {| User.email := email; User.password_hash := "guest";
                     User.is_guest := true; User.plan := free |}.

(** A user record as [signup] writes it. *)
Definition signup_record (email password : string) : doc :=
  User.model_dump {| User.email := email; User.password_hash := "hash:" +:+ password;
                     User.is_guest := false; User.plan := free |}.

Definition user_record (r : doc) : Prop :=
  ∃ email, r = guest_record email ∨ ∃ password, r = signup_record email password.

(** A stored input: the dump of a body that passes validation. *)
Definition input_record (r : doc) : Prop :=
  ∃ body, UserInput.errors body = [] ∧ r = UserInput.model_dump body.

(** The four plans and the summary the generators give for a user id. *)
Definition plans_of (u : string) (face : LookmaxxingDetail.t) (phys : PhysiquePlan.t)
    (style : StylingPlan.t) (glow : GlowUpPlan.t) : Prop :=
  make_face_analysis {["user_id" := VStr u]} = Returned face
  ∧ make_physique_plan {["user_id" := VStr u]} = Returned phys
  ∧ make_styling_plan {["user_id" := VStr u]} = Returned style
  ∧ make_glow_up {["user_id" := VStr u]} = Returned glow.

(** A record of a workflow run for some user, in its collection. *)
Definition plan_record (c : string) (r : doc) : Prop :=
  ∃ u face phys style glow,
    plans_of u face phys style glow
    ∧ (c, r) ∈ workflow_documents face phys style glow.

(** What the API may write, collection by collection. *)
Definition schema_ok (c : string) (r : doc) : Prop :=
  (c = "user" ∧ user_record r)
  ∨ (c = "userinput" ∧ input_record r)
  ∨ plan_record c r.

(** ** Requests served in turn *)

(** The stores the server can be left with when it serves its requests one
    after the other, each to completion, whatever store operations fail. *)
Inductive in_turn : Store → Prop :=
| in_turn_empty : in_turn empty_store
| in_turn_serve s r os :
    in_turn s → in_turn (db (run (serve r) {| db := s; outages := os |}).2).

(** In the user collection, a signup record comes before every other record
    with its email. *)
Definition signups_first (s : Store) : Prop :=
  ∀ (i j : nat) d d' email password,
    collection "user" s !! i = Some d →
    collection "user" s !! j = Some d' →
    (j < i)%nat →
    fields d = signup_record email password →
    fields d' !! "email" ≠ Some (VStr email).

(** The collections of the seven schemas. *)
Definition schema_collections : list string :=
  ["user"; "userinput"; "lookmaxxingdetail"; "physiqueplan"; "stylingplan";
   "glowupplan"; "analysissummary"].

(** A stored input handed in and written while nothing else is served. *)
Definition one_input_served : list event :=
  [Arrive (POST_input first_input); Advance 0 None; Advance 0 None].

(** Two signups for one address served at the same time: both look the
    address up before either inserts. *)
Definition overlapping_signups : list event :=
  [Arrive (POST_auth_signup alice);
   Arrive (POST_auth_signup (SignupRequest.mk "alice@example.com" "other"));
   Advance 0 None;
   Advance 1 None;
   Advance 0 None;
   Advance 1 None;
   Advance 0 None;
   Advance 0 None].

(** A workflow run for user u1 served while nothing else is. *)
Definition one_workflow_served : list event :=
  Arrive (POST_workflow_run (WorkflowRequest.mk "u1")) :: replicate 7 (Advance 0 None).

(** A guest login, bob's signup, then a guest login with bob's address,
    served in turn. *)
Definition store_after_three : Store :=
  db (run (serve (POST_auth_guest (GuestLoginRequest.mk "bob@example.com")))
        {| db := db (run (serve (POST_auth_signup bob))
                       {| db := db (run (serve (POST_auth_guest alice_guest))
                                      {| db := empty_store; outages := [] |}).2;
                          outages := [] |}).2;
           outages := [] |}).2.

(** ** The diagnostic route ([GET /test]) *)

(** The handle [db] of the database module as [test_database] uses it:
    whether it has a [name] attribute and what it holds, and what
    [list_collection_names()] does when called. *)
Record Database : Type := {
  name : option string;
  list_collection_names : outcome (list string)
}.

(** A Python string is held as its UTF-8 bytes.  A byte [10xxxxxx] goes on
    with the character the bytes before it began. *)
Definition is_continuation (a : Ascii.ascii) : bool :=
  (128 <=? Ascii.nat_of_ascii a)%nat && (Ascii.nat_of_ascii a <? 192)%nat.

(** [len(s)]: the number of characters (code points) of a string. *)
Fixpoint str_len (s : string) : nat :=
  match s with
  | EmptyString => 0
  | String a s' => if is_continuation a then str_len s' else S (str_len s')
  end.

(** [s[:n]]: the first [n] characters (code points) of a string, each with
    all its bytes. *)
Fixpoint str_prefix (n : nat) (s : string) : string :=
  match s with
  | EmptyString => EmptyString
  | String a s' =>
      if is_continuation a then String a (str_prefix n s')
      else match n with
           | 0 => EmptyString
           | S n' => String a (str_prefix n' s')
           end
  end.

(** [os.getenv(k)] in a condition: set, and not the empty string. *)
Definition env_truthy (env : gmap string string) (k : string) : bool :=
  match env !! k with
  | Some v => negb (bool_decide (v = ""))
  | None => false
  end.

(** [test_database()], with the module's [db] and the process environment
    as arguments.  Nothing in the outer [try] of the source can raise apart
    from the listing, which has its own handler, so the outer handler is
    never entered. *)
Definition test_database (handle : option Database) (env : gmap string string) : doc :=
  let response : doc :=
    <["backend" := VStr "✅ Running"]>
    (<["database" := VStr "❌ Not Available"]>
    (<["database_url" := VNone]>
    (<["database_name" := VNone]>
    (<["connection_status" := VStr "Not Connected"]>
    (<["collections" := VList []]> ∅))))) in
  let response : doc :=
    match handle with
    | Some h =>
        let response := <["database" := VStr "✅ Available"]> response in
        let response := <["database_url" := VStr "✅ Configured"]> response in
        let response :=
          <["database_name" := VStr (match name h with
                                     | Some n => n
                                     | None => "✅ Connected"
                                     end)]> response in
        let response := <["connection_status" := VStr "Connected"]> response in
        match list_collection_names h with
        | Returned collections =>
            let response := <["collections" := VList (take 10 collections)]> response in
            <["database" := VStr "✅ Connected & Working"]> response
        | Raised e =>
            <["database" := VStr ("⚠️  Connected but Error: "
                                  +:+ str_prefix 50 (str_exn e))]> response
        end
    | None => <["database" := VStr "⚠️  Available but not initialized"]> response
    end in
  let response : doc :=
    <["database_url" := VStr (if env_truthy env "DATABASE_URL"
                              then "✅ Set" else "❌ Not Set")]> response in
  <["database_name" := VStr (if env_truthy env "DATABASE_NAME"
                             then "✅ Set" else "❌ Not Set")]> response.

(** A handle whose listing works and returns twelve names, and one whose
    listing fails. *)
Definition listing_twelve : Database :=
  {| name := Some "ruva";
     list_collection_names :=
       Returned ["c01"; "c02"; "c03"; "c04"; "c05"; "c06"; "c07"; "c08"; "c09"; "c10";
                 "c11"; "c12"] |}.

Definition listing_fails : Database :=
  {| name := None; list_collection_names := Raised (Exception "not authorized") |}.

(** A handle whose listing fails with a message of sixty accented letters
    (two bytes each). *)
Definition sixty_accents : string :=
  "éééééééééééééééééééééééééééééééééééééééééééééééééééééééééééé".

Definition fifty_accents : string :=
  "éééééééééééééééééééééééééééééééééééééééééééééééééé".

Definition listing_fails_accented : Database :=
  {| name := None; list_collection_names := Raised (Exception sixty_accents) |}.

(** ** Passwords and store traffic *)

(** The stored hash of a signup record with its first five characters
    (the prefix [hash:]) taken off. *)
Definition plaintext_of (hash : string) : string :=
  String.substring 5 (String.length hash - 5) hash.

(** The command tree issues at most [reads] lookups and [writes] inserts,
    whatever the store answers. *)
Fixpoint within {A : Type} (reads writes : nat) (p : prog A) : Prop :=
  match p with
  | Return _ => True
  | Raise _ => True
  | GetDocuments _ _ _ k =>
      match reads with
      | 0 => False
      | S reads' => ∀ x, within reads' writes (k x)
      end
  | CreateDocument _ _ k =>
      match writes with
      | 0 => False
      | S writes' => ∀ x, within reads writes' (k x)
      end
  end.

(** The most store operations a request can take: lookups, inserts. *)
Definition store_budget (r : request) : nat * nat :=
  match r with
  | POST_auth_signup _ => (1, 1)
  | POST_auth_login _ => (1, 0)
  | POST_auth_guest _ => (0, 1)
  | POST_input _ => (0, 1)
  | POST_workflow_run _ => (1, 5)
  | GET_summary _ => (1, 0)
  end.

(** An environment with one variable set and the other set to nothing. *)
Definition env_url_only : gmap string string :=
  <["DATABASE_URL" := "mongodb://localhost"]> (<["DATABASE_NAME" := ""]> ∅).

(** ** The store operations of a run *)




(** [served_after s s']: the store [s'] is what the server is left with
    after serving further requests in turn, starting from the store [s]. *)
Inductive served_after (s : Store) : Store → Prop :=
| served_after_none : served_after s s
| served_after_one s' r os :
    served_after s s' →
    served_after s (db (run (serve r) {| db := s'; outages := os |}).2).
(** * Properties *)

(** ** Running command trees *)

Lemma answered_available w : available w → answered w = w.
Proof. destruct w as [s os]. unfold available, answered. simpl. by intros ->. Qed.

Lemma run_bind {A B : Type} (p : prog A) (f : A → prog B) w :
  run (p ≫= f) w =
  match run p w with
  | (Returned a, w') => run (f a) w'
  | (Raised e, w') => (Raised e, w')
  end.
Proof.
  unfold mbind, prog_bind. revert w.
  induction p as [a|e|c flt limit k IH|c r k IH]; intros w; simpl; try done.
  - destruct (outages w) as [|[m|] os]; apply IH.
  - destruct (outages w) as [|[m|] os]; simpl; apply IH.
Qed.

Lemma run_try_except {A : Type} (p : prog A) (h : exn → prog A) w :
  run (try_except p h) w =
  match run p w with
  | (Returned a, w') => (Returned a, w')
  | (Raised e, w') => run (h e) w'
  end.
Proof.
  revert w.
  induction p as [a|e|c flt limit k IH|c r k IH]; intros w; simpl; try done.
  - destruct (outages w) as [|[m|] os]; apply IH.
  - destruct (outages w) as [|[m|] os]; simpl; apply IH.
Qed.

Lemma run_lift {A : Type} (o : outcome A) w : run (lift o) w = (o, w).
Proof. by destruct o. Qed.

Lemma run_get_documents c flt limit w :
  run (get_documents c flt limit) w =
  match outages w with
  | Some m :: _ => (Raised (Exception m), answered w)
  | _ => (Returned (find c flt limit (db w)), answered w)
  end.
Proof. unfold get_documents, answered. simpl. by destruct (outages w) as [|[m|] os]. Qed.

Lemma run_create_document c r w :
  run (create_document c r) w =
  match outages w with
  | Some m :: _ => (Raised (Exception m), answered w)
  | _ => (Returned (str_oid (next_oid (db w))),
          {| db := (insert_one c r (db w)).2; outages := tail (outages w) |})
  end.
Proof. unfold create_document, answered. simpl. by destruct (outages w) as [|[m|] os]. Qed.

(** A store read under [try ... except], as the handlers write it. *)
Lemma run_guarded_read c flt limit w :
  run (try_except (get_documents c flt limit) internal_error) w =
  match outages w with
  | Some m :: _ => (Raised (HTTPException 500 m), answered w)
  | _ => (Returned (find c flt limit (db w)), answered w)
  end.
Proof.
  rewrite run_try_except, run_get_documents.
  by destruct (outages w) as [|[m|] os].
Qed.

(** ** The store *)

Lemma collection_insert_one c r s :
  collection c (insert_one c r s).2 = collection c s ++ [Stored (next_oid s) r].
Proof. unfold collection. simpl. by rewrite lookup_insert_eq. Qed.

Lemma collection_insert_one_ne c c' r s :
  c ≠ c' → collection c' (insert_one c r s).2 = collection c' s.
Proof. intros Hne. unfold collection. simpl. by rewrite lookup_insert_ne. Qed.

Lemma next_oid_insert_one c r s : next_oid (insert_one c r s).2 = S (next_oid s).
Proof. done. Qed.

Lemma matches_singleton k v d : matches {[k := v]} d ↔ fields d !! k = Some v.
Proof. unfold matches. by rewrite map_Forall_singleton. Qed.

Lemma find_nil_iff c k v s :
  find c {[k := v]} 1 s = [] ↔ ∀ d, d ∈ collection c s → fields d !! k ≠ Some v.
Proof.
  unfold find. split.
  - intros Hnil d Hd Hk.
    assert (Hin : d ∈ filter (matches {[k := v]}) (collection c s)).
    { apply list_elem_of_filter. split; [by apply matches_singleton | done]. }
    destruct (filter (matches {[k := v]}) (collection c s)) as [|x xs]; [|by simpl in Hnil].
    by apply not_elem_of_nil in Hin.
  - intros Hno.
    destruct (filter (matches {[k := v]}) (collection c s)) as [|x xs] eqn:Hf; [done|].
    assert (Hin : x ∈ filter (matches {[k := v]}) (collection c s)).
    { rewrite Hf. apply list_elem_of_here. }
    apply list_elem_of_filter in Hin as [Hm Hx].
    apply matches_singleton in Hm. by destruct (Hno x Hx).
Qed.

Lemma find_cons_matches c k v s d ds :
  find c {[k := v]} 1 s = d :: ds →
  ds = [] ∧ d ∈ collection c s ∧ fields d !! k = Some v.
Proof.
  unfold find. intros Hf.
  destruct (filter (matches {[k := v]}) (collection c s)) as [|x xs] eqn:Hfl; [done|].
  simpl in Hf. rewrite take_0 in Hf. injection Hf as Hx Hds. subst x ds.
  assert (Hin : d ∈ filter (matches {[k := v]}) (collection c s)).
  { rewrite Hfl. apply list_elem_of_here. }
  apply list_elem_of_filter in Hin as [Hm Hd].
  by apply matches_singleton in Hm.
Qed.

(** ** Plan generators and the summary composer *)

Lemma doc_ne_by_field (d1 d2 : doc) (k : string) : d1 !! k ≠ d2 !! k → d1 ≠ d2.
Proof. intros Hk Heq. apply Hk. by rewrite Heq. Qed.

Lemma user_id_of_ext model (d1 d2 : doc) :
  d1 !! "user_id" = d2 !! "user_id" → user_id_of model d1 = user_id_of model d2.
Proof. unfold user_id_of. by intros ->. Qed.

(** C9: the four plan generators are functions of the input record alone,
    they leave the world as it is when a handler calls them, and two input
    records that carry the same [user_id] get identical outputs, whatever
    their other fields hold. *)
Theorem C9_generators_depend_only_on_user_id (d1 d2 : doc) :
  d1 !! "user_id" = d2 !! "user_id" →
  (make_face_analysis d1 = make_face_analysis d2
   ∧ make_physique_plan d1 = make_physique_plan d2
   ∧ make_styling_plan d1 = make_styling_plan d2
   ∧ make_glow_up d1 = make_glow_up d2)
  ∧ ∀ w : World,
      run (lift (make_face_analysis d1)) w = (make_face_analysis d2, w)
      ∧ run (lift (make_physique_plan d1)) w = (make_physique_plan d2, w)
      ∧ run (lift (make_styling_plan d1)) w = (make_styling_plan d2, w)
      ∧ run (lift (make_glow_up d1)) w = (make_glow_up d2, w).
Proof.
  intros Hu.
  assert (Hgen : make_face_analysis d1 = make_face_analysis d2
                 ∧ make_physique_plan d1 = make_physique_plan d2
                 ∧ make_styling_plan d1 = make_styling_plan d2
                 ∧ make_glow_up d1 = make_glow_up d2).
  { unfold make_face_analysis, make_physique_plan, make_styling_plan, make_glow_up.
    repeat split; f_equal; by apply user_id_of_ext. }
  split; [done|].
  intros w. rewrite !run_lift.
  destruct Hgen as (-> & -> & -> & ->). done.
Qed.

Lemma C9_witness :
  input_a ≠ input_b
  ∧ make_face_analysis input_a = make_face_analysis input_b
  ∧ make_glow_up input_a = make_glow_up input_b.
Proof.
  split; [apply (doc_ne_by_field _ _ "age"); by vm_compute|].
  destruct (C9_generators_depend_only_on_user_id input_a input_b) as [(Hf & _ & _ & Hg) _].
  - reflexivity.
  - split; [exact Hf | exact Hg].
Defined.

(** C2: the summary composer builds each one-line summary from the stated
    fields in the stated order, joining list fields with [", "]; for face
    shape oval and the grooming list of the face generator the face summary
    is exactly the documented string. *)
Theorem C2_make_summary_composition (face : LookmaxxingDetail.t)
    (phys : PhysiquePlan.t) (style : StylingPlan.t) :
  let s := make_summary face phys style in
  AnalysisSummary.user_id s = LookmaxxingDetail.user_id face
  ∧ AnalysisSummary.face_summary s =
      "Face shape " +:+ LookmaxxingDetail.face_shape face +:+ "; groom: "
        +:+ join ", " (LookmaxxingDetail.grooming face)
  ∧ AnalysisSummary.physique_summary s =
      "Body " +:+ PhysiquePlan.body_type phys +:+ "; posture: "
        +:+ join ", " (PhysiquePlan.posture_cues phys)
  ∧ AnalysisSummary.style_summary s =
      "Colours: " +:+ join ", " (StylingPlan.colours style)
  ∧ AnalysisSummary.outfit_summary s =
      "Outfits: " +:+ join ", " (StylingPlan.daily_outfits style)
  ∧ (LookmaxxingDetail.face_shape face = "oval" →
     LookmaxxingDetail.grooming face = ["weekly exfoliation"; "SPF 50 daily"] →
     AnalysisSummary.face_summary s =
       "Face shape oval; groom: weekly exfoliation, SPF 50 daily").
Proof.
  simpl. repeat split.
  intros -> ->. reflexivity.
Qed.

(** The joiner goes between consecutive items only. *)
Lemma join_nil sep : join sep [] = "".
Proof. done. Qed.

Lemma join_singleton sep x : join sep [x] = x.
Proof. done. Qed.

Lemma join_cons sep x y l : join sep (x :: y :: l) = x +:+ sep +:+ join sep (y :: l).
Proof. done. Qed.

Lemma C2_witness :
  make_summary face_u1 phys_u1 style_u1 =
  {| AnalysisSummary.user_id := "u1";
     AnalysisSummary.face_summary :=
       "Face shape oval; groom: weekly exfoliation, SPF 50 daily";
     AnalysisSummary.physique_summary :=
       "Body athletic; posture: neck long, ribs down, glutes on";
     AnalysisSummary.style_summary := "Colours: cream, black, light gold";
     AnalysisSummary.outfit_summary :=
       "Outfits: monochrome black smart-casual, cream knit + tapered chinos" |}.
Proof.
  destruct (C2_make_summary_composition face_u1 phys_u1 style_u1)
    as (Hu & _ & Hp & Hs & Ho & Hf).
  specialize (Hf eq_refl eq_refl).
  destruct (make_summary face_u1 phys_u1 style_u1) as [u f p s o].
  simpl in *. subst. reflexivity.
Defined.

(** ** Validation of [UserInput] *)

Lemma int_field_ok_iff lo hi o :
  UserInput.int_field_ok lo hi o = true ↔ ∀ v, o = Some v → (lo ≤ v ≤ hi)%Z.
Proof.
  destruct o as [v|]; simpl.
  - rewrite andb_true_iff, !bool_decide_eq_true. split.
    + intros H v' [= <-]. exact H.
    + intros H. by apply H.
  - split; [by intros _ v' [=] | done].
Qed.

Lemma float_field_ok_iff lo hi o :
  UserInput.float_field_ok lo hi o = true
  ↔ ∀ v, o = Some v → (Qc_of_Z lo ≤ v ∧ v ≤ Qc_of_Z hi)%Qc.
Proof.
  destruct o as [v|]; simpl.
  - rewrite andb_true_iff, !bool_decide_eq_true. split.
    + intros H v' [= <-]. exact H.
    + intros H. by apply H.
  - split; [by intros _ v' [=] | done].
Qed.

Lemma errors_nil_iff body :
  UserInput.errors body = []
  ↔ UserInput.height_cm_ok body = true
    ∧ UserInput.weight_kg_ok body = true
    ∧ UserInput.age_ok body = true.
Proof.
  unfold UserInput.errors.
  destruct (UserInput.height_cm_ok body), (UserInput.weight_kg_ok body),
    (UserInput.age_ok body); simpl; split; try done; intros (? & ? & ?); done.
Qed.

(** C3: a body is accepted exactly when every supplied number lies in its
    inclusive range (height 100..250, weight 30..250, age 13..100); a body
    that breaks a range is answered with a validation error and the store is
    not touched, an accepted body reaches the handler; height 99 is rejected. *)
Theorem C3_user_input_ranges (body : UserInput.t) (w : World) :
  (UserInput.errors body = []
   ↔ (∀ h, UserInput.height_cm body = Some h → (100 ≤ h ≤ 250)%Z)
     ∧ (∀ x, UserInput.weight_kg body = Some x →
          (Qc_of_Z 30 ≤ x ∧ x ≤ Qc_of_Z 250)%Qc)
     ∧ (∀ a, UserInput.age body = Some a → (13 ≤ a ≤ 100)%Z))
  ∧ (UserInput.errors body ≠ [] →
     run (post_input body) w
     = (Raised (HTTPException 422 (join ", " (UserInput.errors body))), w))
  ∧ (UserInput.errors body = [] →
     run (post_input body) w = run (save_user_input body) w)
  ∧ (UserInput.height_cm body = Some 99%Z → UserInput.errors body ≠ []).
Proof.
  assert (Hiff : UserInput.errors body = []
    ↔ (∀ h, UserInput.height_cm body = Some h → (100 ≤ h ≤ 250)%Z)
      ∧ (∀ x, UserInput.weight_kg body = Some x →
           (Qc_of_Z 30 ≤ x ∧ x ≤ Qc_of_Z 250)%Qc)
      ∧ (∀ a, UserInput.age body = Some a → (13 ≤ a ≤ 100)%Z)).
  { rewrite errors_nil_iff.
    unfold UserInput.height_cm_ok, UserInput.weight_kg_ok, UserInput.age_ok.
    by rewrite !int_field_ok_iff, float_field_ok_iff. }
  split; [exact Hiff|]. repeat split.
  - intros Hne. unfold post_input.
    destruct (UserInput.errors body) as [|e es]; [done|]. reflexivity.
  - intros Hok. unfold post_input. by rewrite Hok.
  - intros H99 Hnil. apply Hiff in Hnil as (Hh & _ & _).
    specialize (Hh _ H99). lia.
Qed.

Lemma C3_witness :
  (run (post_input body_at_lower_bounds) fresh_world).1
    = Returned (<["input_id" := JValue (VStr "0")]> ∅)
  ∧ (run (post_input body_at_upper_bounds) fresh_world).1
    = Returned (<["input_id" := JValue (VStr "0")]> ∅)
  ∧ run (post_input body_height_99) fresh_world
    = (Raised (HTTPException 422 "height_cm"), fresh_world).
Proof.
  destruct (C3_user_input_ranges body_at_lower_bounds fresh_world) as (_ & _ & Hlo & _).
  destruct (C3_user_input_ranges body_at_upper_bounds fresh_world) as (_ & _ & Hhi & _).
  destruct (C3_user_input_ranges body_height_99 fresh_world) as (_ & Hrej & _ & H99).
  rewrite Hlo by reflexivity. rewrite Hhi by reflexivity.
  rewrite Hrej by (apply H99; reflexivity).
  repeat split; reflexivity.
Defined.

(** ** Signup *)

Lemma str_oid_inj n m : str_oid n = str_oid m → n = m.
Proof. unfold str_oid. apply (inj pretty). Qed.

Lemma email_of_dumped_user u : User.model_dump u !! "email" = Some (VStr (User.email u)).
Proof. unfold User.model_dump. by rewrite lookup_insert_eq. Qed.

Lemma get_email_of_dumped_user u :
  get (User.model_dump u) "email" = VStr (User.email u).
Proof. done. Qed.

Lemma password_hash_of_dumped_user u :
  get (User.model_dump u) "password_hash" = VStr (User.password_hash u).
Proof. done. Qed.

Lemma run_signup_available w payload :
  available w →
  run (signup payload) w =
  match find "user" {["email" := VStr (SignupRequest.email payload)]} 1 (db w) with
  | _ :: _ => (Raised (HTTPException 409 "Email already exists"), w)
  | [] =>
      (Returned (<["user_id" := JValue (VStr (str_oid (next_oid (db w))))]>
                 (<["email" := JValue (VStr (SignupRequest.email payload))]> ∅)),
       {| db := (insert_one "user"
                   (User.model_dump
                      {| User.email := SignupRequest.email payload;
                         User.password_hash := "hash:" +:+ SignupRequest.password payload;
                         User.is_guest := false;
                         User.plan := free |}) (db w)).2;
          outages := [] |})
  end.
Proof.
  intros Hav. unfold signup.
  rewrite run_bind, run_guarded_read, (answered_available w Hav).
  unfold available in Hav. rewrite Hav.
  destruct (find "user" _ 1 (db w)) as [|d ds]; [|done].
  rewrite run_bind, run_create_document, Hav. done.
Qed.

Lemma run_signup_free w payload :
  available w →
  (∀ d, d ∈ collection "user" (db w) →
        fields d !! "email" ≠ Some (VStr (SignupRequest.email payload))) →
  run (signup payload) w
  = (Returned (<["user_id" := JValue (VStr (str_oid (next_oid (db w))))]>
               (<["email" := JValue (VStr (SignupRequest.email payload))]> ∅)),
     {| db := (insert_one "user"
                 (User.model_dump
                    {| User.email := SignupRequest.email payload;
                       User.password_hash := "hash:" +:+ SignupRequest.password payload;
                       User.is_guest := false;
                       User.plan := free |}) (db w)).2;
        outages := [] |}).
Proof.
  intros Hav Hfree. rewrite run_signup_available by done.
  by rewrite (proj2 (find_nil_iff _ _ _ _) Hfree).
Qed.

(** C4: on an available store, signup answers 409 and leaves the store as
    it is when a user record already has the email; otherwise it appends
    exactly one user record, with password hash ["hash:"] followed by the
    password and [is_guest] false, and returns the new identifier and the
    email.  A second signup with that email is then answered 409, and a
    signup with another unregistered email succeeds with another identifier. *)
Theorem C4_signup (w : World) (payload : SignupRequest.t) :
  available w →
  let email := SignupRequest.email payload in
  let user := {| User.email := email;
                 User.password_hash := "hash:" +:+ SignupRequest.password payload;
                 User.is_guest := false;
                 User.plan := free |} in
  let id := next_oid (db w) in
  let w1 := {| db := (insert_one "user" (User.model_dump user) (db w)).2;
               outages := [] |} in
  ((∃ d, d ∈ collection "user" (db w) ∧ fields d !! "email" = Some (VStr email)) →
   run (signup payload) w = (Raised (HTTPException 409 "Email already exists"), w))
  ∧ ((∀ d, d ∈ collection "user" (db w) → fields d !! "email" ≠ Some (VStr email)) →
     run (signup payload) w
     = (Returned (<["user_id" := JValue (VStr (str_oid id))]>
                  (<["email" := JValue (VStr email)]> ∅)), w1)
     ∧ collection "user" (db w1)
       = collection "user" (db w) ++ [Stored id (User.model_dump user)]
     ∧ (∀ c, c ≠ "user" → collection c (db w1) = collection c (db w))
     ∧ (∀ again, SignupRequest.email again = email →
        run (signup again) w1
        = (Raised (HTTPException 409 "Email already exists"), w1))
     ∧ (∀ other,
        SignupRequest.email other ≠ email →
        (∀ d, d ∈ collection "user" (db w) →
              fields d !! "email" ≠ Some (VStr (SignupRequest.email other))) →
        ∃ id' w2,
          run (signup other) w1
          = (Returned (<["user_id" := JValue (VStr id')]>
                       (<["email" := JValue (VStr (SignupRequest.email other))]> ∅)), w2)
          ∧ id' ≠ str_oid id)).
Proof.
  intros Hav email user id w1.
  assert (Hav1 : available w1) by done.
  assert (Husers : collection "user" (db w1)
                   = collection "user" (db w) ++ [Stored id (User.model_dump user)]).
  { apply collection_insert_one. }
  split.
  - intros (d & Hd & He). rewrite run_signup_available by done.
    destruct (find "user" _ 1 (db w)) as [|x xs] eqn:Hf; [|done].
    pose proof (proj1 (find_nil_iff _ _ _ _) Hf) as Hno. by destruct (Hno d Hd).
  - intros Hfree. split; [|split; [done|split; [|split]]].
    + rewrite run_signup_available by done.
      destruct (find "user" _ 1 (db w)) as [|x xs] eqn:Hf; [done|].
      apply find_cons_matches in Hf as (_ & Hx & He). by destruct (Hfree x Hx).
    + intros c Hc. by apply collection_insert_one_ne.
    + intros again Heq. rewrite run_signup_available by done. rewrite Heq.
      destruct (find "user" _ 1 (db w1)) as [|x xs] eqn:Hf; [|done].
      pose proof (proj1 (find_nil_iff _ _ _ _) Hf) as Hno.
      destruct (Hno (Stored id (User.model_dump user))).
      * rewrite Husers. apply elem_of_app. right. apply list_elem_of_here.
      * apply email_of_dumped_user.
    + intros other Hne Hfree'. rewrite run_signup_available by done.
      destruct (find "user" _ 1 (db w1)) as [|x xs] eqn:Hf.
      * eexists _, _. split; [reflexivity|].
        intros Heq. apply str_oid_inj in Heq. simpl in Heq. unfold id in Heq. lia.
      * apply find_cons_matches in Hf as (_ & Hx & He).
        rewrite Husers in Hx. apply elem_of_app in Hx as [Hx|Hx].
        -- by destruct (Hfree' x Hx).
        -- apply list_elem_of_singleton in Hx. subst x. simpl in He.
           rewrite email_of_dumped_user in He. simpl in He. congruence.
Qed.

Lemma no_users_yet d email :
  d ∈ collection "user" (db fresh_world) → fields d !! "email" ≠ Some (VStr email).
Proof. intros Hd. by apply not_elem_of_nil in Hd. Qed.

Lemma C4_witness :
  (run (signup alice) fresh_world).1
  = Returned (<["user_id" := JValue (VStr "0")]>
              (<["email" := JValue (VStr "alice@example.com")]> ∅))
  ∧ (run (signup alice) (run (signup alice) fresh_world).2).1
    = Raised (HTTPException 409 "Email already exists").
Proof.
  destruct (C4_signup fresh_world alice eq_refl) as [_ Hfree].
  destruct Hfree as (Hrun & _ & _ & Hagain & _).
  { intros d Hd. by apply no_users_yet. }
  split.
  - rewrite Hrun. reflexivity.
  - rewrite Hrun. exact (f_equal fst (Hagain alice eq_refl)).
Defined.

(** ** Login *)

Lemma find_one_head c flt s :
  find c flt 1 s =
  match head (filter (matches flt) (collection c s)) with
  | Some d => [d]
  | None => []
  end.
Proof. unfold find. by destruct (filter (matches flt) (collection c s)). Qed.

Lemma filter_nil_of_free c k v s :
  (∀ d, d ∈ collection c s → fields d !! k ≠ Some v) →
  filter (matches {[k := v]}) (collection c s) = [].
Proof.
  intros Hfree. apply (proj2 (find_nil_iff c k v s)) in Hfree.
  unfold find in Hfree.
  by destruct (filter (matches {[k := v]}) (collection c s)).
Qed.

Lemma find_after_insert_fresh c k v r s :
  (∀ d, d ∈ collection c s → fields d !! k ≠ Some v) →
  r !! k = Some v →
  find c {[k := v]} 1 (insert_one c r s).2 = [Stored (next_oid s) r].
Proof.
  intros Hfree Hr. unfold find.
  rewrite collection_insert_one, filter_app, (filter_nil_of_free c k v s Hfree).
  rewrite filter_cons_True by (by apply matches_singleton).
  by rewrite filter_nil.
Qed.

Lemma run_login_available w payload :
  available w →
  run (login payload) w =
  match find "user" {["email" := VStr (LoginRequest.email payload)]} 1 (db w) with
  | [] => (Raised (HTTPException 404 "User not found"), w)
  | user :: _ =>
      if decide (get (fields user) "password_hash"
                 = VStr ("hash:" +:+ LoginRequest.password payload))
      then (Returned (<["user_id" := JValue (VStr (str_oid (oid user)))]>
                      (<["email" := JValue (get (fields user) "email")]> ∅)), w)
      else (Raised (HTTPException 401 "Invalid credentials"), w)
  end.
Proof.
  intros Hav. unfold login.
  rewrite run_bind, run_guarded_read, (answered_available w Hav).
  unfold available in Hav. rewrite Hav.
  destruct (find "user" _ 1 (db w)) as [|user ds]; [done|].
  by destruct (decide _).
Qed.

(** ** Guest login *)

Lemma run_guest_login_available w payload :
  available w →
  run (guest_login payload) w
  = (Returned (<["user_id" := JValue (VStr (str_oid (next_oid (db w))))]>
               (<["email" := JValue (VStr (GuestLoginRequest.email payload))]>
               (<["guest" := JValue (VBool true)]> ∅))),
     {| db := (insert_one "user"
                 (User.model_dump
                    {| User.email := GuestLoginRequest.email payload;
                       User.password_hash := "guest";
                       User.is_guest := true;
                       User.plan := free |}) (db w)).2;
        outages := [] |}).
Proof.
  intros Hav. unfold guest_login.
  unfold available in Hav. rewrite run_bind, run_create_document, Hav. done.
Qed.

Lemma run_all_guest_logins payload n : ∀ w,
  available w →
  let guest := User.model_dump
                 {| User.email := GuestLoginRequest.email payload;
                    User.password_hash := "guest";
                    User.is_guest := true;
                    User.plan := free |} in
  ∃ w',
    run_all (replicate n (guest_login payload)) w
    = ((λ id, Returned (<["user_id" := JValue (VStr (str_oid id))]>
                        (<["email" := JValue (VStr (GuestLoginRequest.email payload))]>
                        (<["guest" := JValue (VBool true)]> ∅))))
         <$> seq (next_oid (db w)) n, w')
    ∧ available w'
    ∧ collection "user" (db w')
      = collection "user" (db w) ++ ((λ id, Stored id guest) <$> seq (next_oid (db w)) n)
    ∧ ∀ c, c ≠ "user" → collection c (db w') = collection c (db w).
Proof.
  induction n as [|n IH]; intros w Hav guest.
  - exists w. cbn [replicate run_all seq fmap list_fmap].
    by rewrite app_nil_r.
  - cbn [replicate run_all]. rewrite run_guest_login_available by done.
    fold guest.
    destruct (IH {| db := (insert_one "user" guest (db w)).2; outages := [] |} eq_refl)
      as (w' & Hrun & Hav' & Husers & Hother).
    exists w'. rewrite Hrun. cbn [db] in *.
    rewrite next_oid_insert_one in *.
    split; [done|]. split; [done|]. split.
    + rewrite Husers, collection_insert_one. fold guest.
      cbn [seq fmap list_fmap]. by rewrite <- app_assoc.
    + intros c Hc. rewrite Hother by done. by apply collection_insert_one_ne.
Qed.

(** C8: on an available store, guest login always appends a new user record
    with password hash ["guest"] and [is_guest] true, whatever the store
    already holds for that email, and returns the new identifier, the email
    and the guest flag; [n] guest logins with one email all succeed and leave
    [n] new records with [n] different identifiers. *)
Theorem C8_guest_login (w : World) (payload : GuestLoginRequest.t) :
  available w →
  let email := GuestLoginRequest.email payload in
  let guest := User.model_dump {| User.email := email;
                                  User.password_hash := "guest";
                                  User.is_guest := true;
                                  User.plan := free |} in
  let answer id := Returned (<["user_id" := JValue (VStr (str_oid id))]>
                             (<["email" := JValue (VStr email)]>
                             (<["guest" := JValue (VBool true)]> ∅))) in
  (∃ w1,
     run (guest_login payload) w = (answer (next_oid (db w)), w1)
     ∧ available w1
     ∧ collection "user" (db w1)
       = collection "user" (db w) ++ [Stored (next_oid (db w)) guest]
     ∧ ∀ c, c ≠ "user" → collection c (db w1) = collection c (db w))
  ∧ ∀ n, ∃ wn,
      run_all (replicate n (guest_login payload)) w
      = (answer <$> seq (next_oid (db w)) n, wn)
      ∧ collection "user" (db wn)
        = collection "user" (db w) ++ ((λ id, Stored id guest) <$> seq (next_oid (db w)) n)
      ∧ NoDup (str_oid <$> seq (next_oid (db w)) n).
Proof.
  intros Hav email guest answer. split.
  - eexists. split; [by apply run_guest_login_available|].
    split; [done|]. split.
    + apply collection_insert_one.
    + intros c Hc. by apply collection_insert_one_ne.
  - intros n.
    destruct (run_all_guest_logins payload n w Hav) as (wn & Hrun & _ & Husers & _).
    exists wn. split; [exact Hrun|]. split; [exact Husers|].
    apply NoDup_fmap_2; [|apply NoDup_seq].
    intros a b. apply str_oid_inj.
Qed.

Lemma C8_witness :
  (run_all [guest_login alice_guest; guest_login alice_guest; guest_login alice_guest]
     fresh_world).1
  = (λ id, Returned (<["user_id" := JValue (VStr id)]>
                     (<["email" := JValue (VStr "alice@example.com")]>
                     (<["guest" := JValue (VBool true)]> ∅))))
    <$> ["0"; "1"; "2"].
Proof.
  destruct (C8_guest_login fresh_world alice_guest eq_refl) as [_ Hn].
  destruct (Hn 3) as (wn & Hrun & _ & _).
  change (replicate 3 (guest_login alice_guest))
    with [guest_login alice_guest; guest_login alice_guest; guest_login alice_guest]
    in Hrun.
  rewrite Hrun. reflexivity.
Defined.

(** ** Workflow *)

Lemma workflow_base_user_id req s :
  workflow_base req
    (find "userinput" {["user_id" := VStr (WorkflowRequest.user_id req)]} 1 s)
    !! "user_id"
  = Some (VStr (WorkflowRequest.user_id req)).
Proof.
  destruct (find "userinput" _ 1 s) as [|d ds] eqn:Hf.
  - unfold workflow_base. apply lookup_singleton_eq.
  - by apply find_cons_matches in Hf as (_ & _ & Hu).
Qed.

(** With a string under ["user_id"] every generator returns a plan. *)
Lemma generators_return (data : doc) (u : string) :
  data !! "user_id" = Some (VStr u) →
  ∃ face phys style glow,
    make_face_analysis data = Returned face
    ∧ make_physique_plan data = Returned phys
    ∧ make_styling_plan data = Returned style
    ∧ make_glow_up data = Returned glow
    ∧ LookmaxxingDetail.user_id face = u
    ∧ PhysiquePlan.user_id phys = u
    ∧ StylingPlan.user_id style = u
    ∧ GlowUpPlan.user_id glow = u
    ∧ AnalysisSummary.user_id (make_summary face phys style) = u.
Proof.
  intros Hu.
  unfold make_face_analysis, make_physique_plan, make_styling_plan, make_glow_up,
    user_id_of.
  rewrite Hu. cbn [fmap_outcome]. eexists _, _, _, _. repeat split.
Qed.

Lemma run_after_create {A : Type} c r (p : prog A) (ok : A) docs w :
  (∀ w1, run p w1 = match write_all docs w1 with
                    | (None, w') => (Returned ok, w')
                    | (Some m, w') => (Raised (Exception m), w')
                    end) →
  run (create_document c r ≫= λ _, p) w
  = match write_all ((c, r) :: docs) w with
    | (None, w') => (Returned ok, w')
    | (Some m, w') => (Raised (Exception m), w')
    end.
Proof.
  intros Hrest. rewrite run_bind, run_create_document.
  cbn [write_all fst snd]. unfold answered.
  destruct (outages w) as [|[m|] os]; try done; apply Hrest.
Qed.

Lemma run_workflow_writes req w face phys style glow :
  let base := workflow_base req
    (find "userinput" {["user_id" := VStr (WorkflowRequest.user_id req)]} 1 (db w)) in
  make_face_analysis base = Returned face →
  make_physique_plan base = Returned phys →
  make_styling_plan base = Returned style →
  make_glow_up base = Returned glow →
  run (run_workflow req) w =
  match outages w with
  | Some m :: _ => (Raised (HTTPException 500 m), answered w)
  | _ =>
      match write_all (workflow_documents face phys style glow) (answered w) with
      | (None, w') => (Returned (workflow_response face phys style glow), w')
      | (Some m, w') => (Raised (Exception m), w')
      end
  end.
Proof.
  intros base Hface Hphys Hstyle Hglow. subst base.
  unfold run_workflow. rewrite run_bind, run_guarded_read.
  assert (Hwrites : ∀ w0 : World,
    run (face0 ← lift (make_face_analysis
           (workflow_base req
              (find "userinput" {["user_id" := VStr (WorkflowRequest.user_id req)]} 1
                 (db w))));
         phys0 ← lift (make_physique_plan
           (workflow_base req
              (find "userinput" {["user_id" := VStr (WorkflowRequest.user_id req)]} 1
                 (db w))));
         style0 ← lift (make_styling_plan
           (workflow_base req
              (find "userinput" {["user_id" := VStr (WorkflowRequest.user_id req)]} 1
                 (db w))));
         glow0 ← lift (make_glow_up
           (workflow_base req
              (find "userinput" {["user_id" := VStr (WorkflowRequest.user_id req)]} 1
                 (db w))));
         let summary := make_summary face0 phys0 style0 in
         _ ← create_document "lookmaxxingdetail" (LookmaxxingDetail.model_dump face0);
         _ ← create_document "physiqueplan" (PhysiquePlan.model_dump phys0);
         _ ← create_document "stylingplan" (StylingPlan.model_dump style0);
         _ ← create_document "glowupplan" (GlowUpPlan.model_dump glow0);
         _ ← create_document "analysissummary" (AnalysisSummary.model_dump summary);
         mret (<["summary" := JObject (AnalysisSummary.model_dump summary)]>
               (<["face" := JObject (LookmaxxingDetail.model_dump face0)]>
               (<["physique" := JObject (PhysiquePlan.model_dump phys0)]>
               (<["styling" := JObject (StylingPlan.model_dump style0)]>
               (<["glow" := JObject (GlowUpPlan.model_dump glow0)]> ∅)))))) w0
    = match write_all (workflow_documents face phys style glow) w0 with
      | (None, w') => (Returned (workflow_response face phys style glow), w')
      | (Some m, w') => (Raised (Exception m), w')
      end).
  { intros w0. rewrite Hface, Hphys, Hstyle, Hglow.
    do 4 (rewrite run_bind, run_lift). cbv zeta.
    unfold workflow_documents. do 5 (apply run_after_create; intros ?).
    reflexivity. }
  destruct (outages w) as [|[m|] os] eqn:Ho; try done; apply Hwrites.
Qed.

Lemma insert_all_cons d docs s :
  insert_all (d :: docs) s = insert_all docs (insert_one d.1 d.2 s).2.
Proof. done. Qed.

Lemma write_all_available docs : ∀ w,
  available w →
  write_all docs w = (None, {| db := insert_all docs (db w); outages := [] |}).
Proof.
  induction docs as [|d docs IH]; intros [s os] Hav; unfold available in Hav;
    cbn [outages] in Hav; subst os.
  - done.
  - cbn [write_all outages db tail]. by rewrite IH.
Qed.

Lemma write_all_outage pre d post : ∀ w msg rest,
  outages w = replicate (length pre) None ++ Some msg :: rest →
  write_all (pre ++ d :: post) w
  = (Some msg, {| db := insert_all pre (db w); outages := rest |}).
Proof.
  induction pre as [|x pre IH]; intros [s os] msg rest Ho; cbn [outages] in Ho; subst os.
  - done.
  - cbn [app length replicate write_all outages db tail].
    rewrite (IH _ msg rest) by done. by rewrite insert_all_cons.
Qed.

Lemma next_oid_insert_all docs : ∀ s,
  next_oid (insert_all docs s) = next_oid s + length docs.
Proof.
  induction docs as [|d docs IH]; intros s.
  - cbn. lia.
  - rewrite insert_all_cons, IH, next_oid_insert_one. cbn [length]. lia.
Qed.

Lemma collection_insert_all_other docs c : ∀ s,
  c ∉ docs.*1 → collection c (insert_all docs s) = collection c s.
Proof.
  induction docs as [|d docs IH]; intros s Hc; [done|].
  rewrite insert_all_cons. rewrite fmap_cons in Hc.
  apply not_elem_of_cons in Hc as [Hne Hc].
  rewrite IH by done. by apply collection_insert_one_ne.
Qed.

Lemma collection_insert_all docs : ∀ s i c r,
  NoDup docs.*1 →
  docs !! i = Some (c, r) →
  collection c (insert_all docs s) = collection c s ++ [Stored (next_oid s + i) r].
Proof.
  induction docs as [|[c0 r0] docs IH]; intros s i c r Hnd Hi; [done|].
  rewrite fmap_cons in Hnd. apply NoDup_cons in Hnd as [Hd Hnd].
  rewrite insert_all_cons. cbn [fst snd] in *. destruct i as [|i].
  - injection Hi as -> ->.
    rewrite collection_insert_all_other by done.
    by rewrite collection_insert_one, Nat.add_0_r.
  - cbn in Hi. rewrite (IH _ i c r) by done.
    rewrite next_oid_insert_one.
    assert (Hne : c0 ≠ c).
    { intros Heq. subst c0. apply Hd. apply list_elem_of_fmap.
      exists (c, r). split; [done|]. by apply list_elem_of_lookup_2 in Hi. }
    rewrite collection_insert_one_ne by done.
    by replace (S (next_oid s) + i) with (next_oid s + S i) by lia.
Qed.

Lemma workflow_collections_NoDup face phys style glow :
  NoDup (workflow_documents face phys style glow).*1.
Proof.
  unfold workflow_documents. cbn [fmap list_fmap fst].
  apply (bool_decide_unpack _). by vm_compute.
Qed.












(** ** Partial persistence *)

Lemma collection_insert_prefix docs n s :
  NoDup docs.*1 →
  (∀ (i : nat) c r, docs !! i = Some (c, r) → (i < n)%nat →
     collection c (insert_all (take n docs) s)
     = collection c s ++ [Stored (next_oid s + i) r])
  ∧ (∀ (i : nat) c r, docs !! i = Some (c, r) → (n ≤ i)%nat →
       collection c (insert_all (take n docs) s) = collection c s)
  ∧ (∀ c, c ∉ docs.*1 → collection c (insert_all (take n docs) s) = collection c s).
Proof.
  intros Hnd.
  assert (Hsplit : NoDup (take n docs).*1
                   ∧ ∀ x, x ∈ (take n docs).*1 → x ∉ (drop n docs).*1).
  { rewrite <- (take_drop n docs), fmap_app in Hnd.
    apply NoDup_app in Hnd as (H1 & H2 & _). done. }
  destruct Hsplit as [Hnd1 Hdisj]. split; [|split].
  - intros i c r Hi Hlt. apply collection_insert_all; [done|].
    by rewrite lookup_take_lt.
  - intros i c r Hi Hge. apply collection_insert_all_other.
    intros Hin. apply (Hdisj c Hin).
    apply list_elem_of_fmap. exists (c, r). split; [done|].
    apply (list_elem_of_lookup_2 _ (i - n)).
    rewrite lookup_drop. by replace (n + (i - n)) with i by lia.
  - intros c Hc. apply collection_insert_all_other.
    intros Hin. apply Hc. rewrite <- (take_drop n docs), fmap_app.
    apply elem_of_app. by left.
Qed.

(** C7: the five writes of [/workflow/run] are issued in the order
    lookmaxxingdetail, physiqueplan, stylingplan, glowupplan,
    analysissummary, and are not atomic: when the [k]-th write is the first
    to fail, the [k-1] records before it stay in their collections, the
    collections of the later records are left as they were, and what reaches
    the caller is the store's error alone, the same for every [k]. *)
Theorem C7_workflow_partial_persistence (w : World) (req : WorkflowRequest.t)
    (k : nat) (msg : string) (rest : list (option string)) :
  (1 ≤ k ≤ 5)%nat →
  outages w = None :: replicate (k - 1) None ++ Some msg :: rest →
  ∃ face phys style glow w',
    let base := workflow_base req
      (find "userinput" {["user_id" := VStr (WorkflowRequest.user_id req)]} 1 (db w)) in
    let docs := workflow_documents face phys style glow in
    make_face_analysis base = Returned face
    ∧ make_physique_plan base = Returned phys
    ∧ make_styling_plan base = Returned style
    ∧ make_glow_up base = Returned glow
    ∧ docs.*1 = ["lookmaxxingdetail"; "physiqueplan"; "stylingplan"; "glowupplan";
                 "analysissummary"]
    ∧ run (run_workflow req) w = (Raised (Exception msg), w')
    ∧ db w' = insert_all (take (k - 1) docs) (db w)
    ∧ outages w' = rest
    ∧ (∀ (i : nat) c r, docs !! i = Some (c, r) → (i < k - 1)%nat →
         collection c (db w') = collection c (db w) ++ [Stored (next_oid (db w) + i) r])
    ∧ (∀ (i : nat) c r, docs !! i = Some (c, r) → (k - 1 ≤ i)%nat →
         collection c (db w') = collection c (db w))
    ∧ (∀ c, c ∉ docs.*1 → collection c (db w') = collection c (db w)).
Proof.
  intros Hk Ho.
  destruct (generators_return _ _ (workflow_base_user_id req (db w)))
    as (face & phys & style & glow & Hf & Hp & Hs & Hg & _).
  exists face, phys, style, glow.
  eexists {| db := insert_all (take (k - 1) (workflow_documents face phys style glow)) (db w);
             outages := rest |}.
  cbv zeta. do 4 (split; [done|]). split; [done|].
  pose proof (collection_insert_prefix (workflow_documents face phys style glow)
                (k - 1) (db w) (workflow_collections_NoDup face phys style glow))
    as (Hbefore & Hafter & Hother).
  split; [|by repeat split].
  rewrite (run_workflow_writes req w face phys style glow) by done.
  rewrite Ho.
  destruct (lookup_lt_is_Some_2 (workflow_documents face phys style glow) (k - 1))
    as [d Hd]; [cbn; lia|].
  pose proof (write_all_outage (take (k - 1) (workflow_documents face phys style glow)) d
                (drop (S (k - 1)) (workflow_documents face phys style glow))
                (answered w) msg rest) as Hw.
  rewrite take_drop_middle in Hw by done.
  rewrite Hw; [done|].
  unfold answered. rewrite Ho. cbn [outages tail].
  rewrite length_take_le; [done | cbn; lia].
Qed.

Lemma C7_witness :
  ∃ w',
    run (run_workflow (WorkflowRequest.mk "u1")) failing_third_write
    = (Raised (Exception "connection reset"), w')
    ∧ collection "lookmaxxingdetail" (db w')
      = [Stored 0 (LookmaxxingDetail.model_dump face_u1)]
    ∧ collection "physiqueplan" (db w') = [Stored 1 (PhysiquePlan.model_dump phys_u1)]
    ∧ collection "stylingplan" (db w') = []
    ∧ collection "glowupplan" (db w') = []
    ∧ collection "analysissummary" (db w') = [].
Proof.
  destruct (C7_workflow_partial_persistence failing_third_write
              (WorkflowRequest.mk "u1") 3 "connection reset" [])
    as (face & phys & style & glow & w' & Hf & Hp & Hs & Hg & _ & Hrun & _ & _
        & Hbefore & Hafter & _).
  { lia. }
  { reflexivity. }
  assert (face = face_u1) as -> by (unfold face_u1; by injection Hf as <-).
  assert (phys = phys_u1) as -> by (unfold phys_u1; by injection Hp as <-).
  exists w'. split; [exact Hrun|].
  split; [exact (Hbefore 0 "lookmaxxingdetail" _ eq_refl ltac:(lia))|].
  split; [exact (Hbefore 1 "physiqueplan" _ eq_refl ltac:(lia))|].
  split; [exact (Hafter 2 "stylingplan" _ eq_refl ltac:(lia))|].
  split; [exact (Hafter 3 "glowupplan" _ eq_refl ltac:(lia))|].
  exact (Hafter 4 "analysissummary" _ eq_refl ltac:(lia)).
Defined.

(** ** Store failures *)

(** C6, as the code has it: a failed store read is answered with a 500
    that carries the store's message, in every handler that reads; a failed
    insert is not: in signup, guest login, [/input] and [/workflow/run] the
    store's exception leaves the handler as it is. *)
Theorem C6_insert_failures_escape (w : World) (m : string) (os : list (option string)) :
  (outages w = Some m :: os →
   (∀ payload, run (signup payload) w = (Raised (HTTPException 500 m), answered w))
   ∧ (∀ payload, run (login payload) w = (Raised (HTTPException 500 m), answered w))
   ∧ (∀ req, run (run_workflow req) w = (Raised (HTTPException 500 m), answered w))
   ∧ (∀ user_id, run (get_latest_summary user_id) w
                 = (Raised (HTTPException 500 m), answered w))
   ∧ (∀ payload, run (guest_login payload) w = (Raised (Exception m), answered w))
   ∧ (∀ body, UserInput.errors body = [] →
              run (post_input body) w = (Raised (Exception m), answered w)))
  ∧ (outages w = None :: Some m :: os →
     (∀ payload,
        (∀ d, d ∈ collection "user" (db w) →
              fields d !! "email" ≠ Some (VStr (SignupRequest.email payload))) →
        run (signup payload) w = (Raised (Exception m), answered (answered w)))
     ∧ (∀ req, run (run_workflow req) w = (Raised (Exception m), answered (answered w)))).
Proof.
  split; intros Ho.
  - repeat split.
    + intros payload. unfold signup. by rewrite run_bind, run_guarded_read, Ho.
    + intros payload. unfold login. by rewrite run_bind, run_guarded_read, Ho.
    + intros req. unfold run_workflow. by rewrite run_bind, run_guarded_read, Ho.
    + intros user_id. unfold get_latest_summary.
      by rewrite run_bind, run_guarded_read, Ho.
    + intros payload. unfold guest_login. by rewrite run_bind, run_create_document, Ho.
    + intros body Hok. unfold post_input, save_user_input. rewrite Hok.
      by rewrite run_bind, run_create_document, Ho.
  - split.
    + intros payload Hfree. unfold signup.
      rewrite run_bind, run_guarded_read, Ho.
      rewrite (proj2 (find_nil_iff _ _ _ _) Hfree).
      rewrite run_bind, run_create_document.
      unfold answered at 1. rewrite Ho. done.
    + intros req.
      destruct (generators_return _ _ (workflow_base_user_id req (db w)))
        as (face & phys & style & glow & Hf & Hp & Hs & Hg & _).
      rewrite (run_workflow_writes req w face phys style glow) by done.
      rewrite Ho. unfold workflow_documents. cbn [write_all].
      assert (Ha : outages (answered w) = Some m :: os).
      { unfold answered. by rewrite Ho. }
      rewrite Ha. unfold answered. cbn [db outages]. by rewrite Ho.
Qed.

Lemma C6_witness :
  run (signup alice) failing_second_operation
  = (Raised (Exception "connection reset"), fresh_world)
  ∧ run (run_workflow (WorkflowRequest.mk "u1")) failing_second_operation
    = (Raised (Exception "connection reset"), fresh_world)
  ∧ run (guest_login alice_guest) failing_next_operation
    = (Raised (Exception "connection reset"), fresh_world)
  ∧ run (post_input body_at_lower_bounds) failing_next_operation
    = (Raised (Exception "connection reset"), fresh_world)
  ∧ run (login alice_login) failing_next_operation
    = (Raised (HTTPException 500 "connection reset"), fresh_world).
Proof.
  destruct (C6_insert_failures_escape failing_second_operation "connection reset" [])
    as [_ Hsecond].
  destruct (C6_insert_failures_escape failing_next_operation "connection reset" [])
    as [Hnext _].
  destruct (Hsecond eq_refl) as [Hsignup Hworkflow].
  destruct (Hnext eq_refl) as (_ & Hlogin & _ & _ & Hguest & Hinput).
  split; [|split; [|split; [|split]]].
  - apply Hsignup. intros d Hd. by apply not_elem_of_nil in Hd.
  - apply Hworkflow.
  - apply Hguest.
  - by apply Hinput.
  - apply Hlogin.
Defined.

(** ** Guest records and login *)

(** Served one after the other, a guest login followed by a signup with the
    same email leaves no signup record: the signup is answered 409. *)
Lemma signup_after_guest_conflicts w email password :
  available w →
  run (signup (SignupRequest.mk email password))
      (run (guest_login (GuestLoginRequest.mk email)) w).2
  = (Raised (HTTPException 409 "Email already exists"),
     (run (guest_login (GuestLoginRequest.mk email)) w).2).
Proof.
  intros Hav. rewrite run_guest_login_available by done. cbn [snd].
  rewrite run_signup_available by done. cbn [db SignupRequest.email].
  destruct (find "user" _ 1 _) as [|x xs] eqn:Hf; [|done].
  pose proof (proj1 (find_nil_iff _ _ _ _) Hf) as Hno.
  destruct (Hno (Stored (next_oid (db w))
                   (User.model_dump
                      {| User.email := email; User.password_hash := "guest";
                         User.is_guest := true; User.plan := free |}))).
  - rewrite collection_insert_one. apply elem_of_app. right. apply list_elem_of_here.
  - apply email_of_dumped_user.
Qed.

(** C10: there is a reachable store that holds a guest record and a signup
    record with one email, the guest record first, and on it a login with
    that email and the password of the signup is answered 401. *)
Theorem C10_guest_record_shadows_signup :
  ∃ (s : Store) (g u : stored),
    reachable s
    ∧ collection "user" s = [g; u]
    ∧ fields g = User.model_dump {| User.email := "alice@example.com";
                                    User.password_hash := "guest";
                                    User.is_guest := true;
                                    User.plan := free |}
    ∧ fields u = User.model_dump {| User.email := "alice@example.com";
                                    User.password_hash := "hash:s3cret";
                                    User.is_guest := false;
                                    User.plan := free |}
    ∧ find "user" {["email" := VStr "alice@example.com"]} 1 s = [g]
    ∧ sent (steps (idle empty_store) overlapping_requests)
      = [Returned (<["user_id" := JValue (VStr (str_oid (oid u)))]>
                   (<["email" := JValue (VStr "alice@example.com")]> ∅));
         Returned (<["user_id" := JValue (VStr (str_oid (oid g)))]>
                   (<["email" := JValue (VStr "alice@example.com")]>
                   (<["guest" := JValue (VBool true)]> ∅)))]
    ∧ run (login (LoginRequest.mk "alice@example.com" "s3cret")) {| db := s; outages := [] |}
      = (Raised (HTTPException 401 "Invalid credentials"), {| db := s; outages := [] |}).
Proof.
  exists (store (steps (idle empty_store) overlapping_requests)).
  eexists (Stored 0 _), (Stored 1 _).
  split; [by exists overlapping_requests|].
  split; [vm_compute; reflexivity|].
  split; [reflexivity|]. split; [reflexivity|].
  split; [vm_compute; reflexivity|].
  split; vm_compute; reflexivity.
Qed.

(** * Further properties of the handlers *)

(** ** What running a command tree keeps *)

Ltac step_tree :=
  cbn [writes_only no_http_error http_errors_before_writes bind try_except
       get_documents create_document mbind mret prog_bind prog_ret
       internal_error lift].

Lemma run_keeps {A : Type} (P : string → doc → Prop) (I : Store → Prop) (p : prog A) :
  kept_by P I → writes_only P p → ∀ w, I (db w) → I (db (run p w).2).
Proof.
  intros Hkept. induction p as [a|e|c flt limit k IH|c r k IH]; intros Hp w Hw;
    cbn [run]; try done.
  - destruct (outages w) as [|[m|] os]; apply IH; try done; apply Hp.
  - destruct Hp as [Hr Hk].
    destruct (outages w) as [|[m|] os]; cbn [insert_one]; apply IH; try done;
      cbn [db]; by apply (Hkept (db w) c r).
Qed.

Lemma steps_keep (P : string → doc → Prop) (I : Store → Prop) :
  kept_by P I →
  (∀ r, writes_only P (serve r)) →
  ∀ es c,
    I (store c) → Forall (writes_only P) (pool c) →
    I (store (steps c es)) ∧ Forall (writes_only P) (pool (steps c es)).
Proof.
  intros Hkept Hserve. induction es as [|e es IH]; intros c Hs Hpool; [done|].
  cbn [steps foldl]. apply IH.
  - destruct e as [r|i fault]; cbn [step]; [done|].
    destruct (pool c !! i) as [[a|e|col flt limit k|col r k]|] eqn:Hi; try done.
    destruct fault as [m|]; [done|]. cbn [insert_one store].
    apply (Hkept (store c) col r); [done|].
    apply (Forall_lookup_1 _ _ _ _ Hpool) in Hi. apply Hi.
  - destruct e as [r|i fault]; cbn [step].
    { cbn [pool]. apply Forall_app. split; [done|]. apply Forall_singleton, Hserve. }
    destruct (pool c !! i) as [[a|e|col flt limit k|col r k]|] eqn:Hi; try done;
      pose proof (Forall_lookup_1 _ _ _ _ Hpool Hi) as Hp.
    + cbn [pool]. by apply Forall_delete.
    + cbn [pool]. by apply Forall_delete.
    + cbn [pool]. apply Forall_insert; [done|]. apply Hp.
    + destruct fault as [m|]; cbn [insert_one pool];
        (apply Forall_insert; [done|]); apply Hp.
Qed.

Lemma reachable_keeps (P : string → doc → Prop) (I : Store → Prop) :
  kept_by P I →
  (∀ r, writes_only P (serve r)) →
  I empty_store →
  ∀ s, reachable s → I s.
Proof.
  intros Hkept Hserve Hinit s [es <-].
  by apply (steps_keep P I Hkept Hserve es (idle empty_store)).
Qed.

Lemma in_turn_keeps (P : string → doc → Prop) (I : Store → Prop) :
  kept_by P I →
  (∀ r, writes_only P (serve r)) →
  I empty_store →
  ∀ s, in_turn s → I s.
Proof.
  intros Hkept Hserve Hinit s Hs. induction Hs as [|s r os Hs IH]; [done|].
  by apply (run_keeps P I (serve r) Hkept (Hserve r) {| db := s; outages := os |}).
Qed.

Lemma store_conforms_kept (P : string → doc → Prop) : kept_by P (store_conforms P).
Proof.
  intros s c r Hs Hr c' d Hd. destruct (decide (c = c')) as [<-|Hne].
  - rewrite collection_insert_one in Hd. apply elem_of_app in Hd as [Hd|Hd].
    + by apply Hs.
    + apply list_elem_of_singleton in Hd. by subst d.
  - rewrite collection_insert_one_ne in Hd by done. by apply Hs.
Qed.

Lemma store_conforms_empty (P : string → doc → Prop) : store_conforms P empty_store.
Proof. intros c d Hd. by apply not_elem_of_nil in Hd. Qed.

(** ** Every handler writes records of its schema only *)

Lemma generators_plans_of (data : doc) face phys style glow :
  make_face_analysis data = Returned face →
  make_physique_plan data = Returned phys →
  make_styling_plan data = Returned style →
  make_glow_up data = Returned glow →
  ∃ u, data !! "user_id" = Some (VStr u) ∧ plans_of u face phys style glow.
Proof.
  unfold plans_of, make_face_analysis, make_physique_plan, make_styling_plan,
    make_glow_up, user_id_of.
  destruct (data !! "user_id") as [[| | | |u|]|]; cbn [fmap_outcome]; try done.
  intros Hf Hp Hs Hg. exists u. rewrite lookup_singleton_eq. cbn [fmap_outcome]. done.
Qed.

Lemma signup_writes payload : writes_only schema_ok (signup payload).
Proof.
  unfold signup. step_tree. intros [m|ds]; step_tree; [done|].
  destruct ds as [|d ds]; step_tree; [|done]. split.
  - left. split; [done|]. eexists. right. by eexists.
  - by intros [m|id].
Qed.

Lemma login_writes P payload : writes_only P (login payload).
Proof.
  unfold login. step_tree. intros [m|ds]; step_tree; [done|].
  destruct ds as [|d ds]; step_tree; [done|]. by destruct (decide _).
Qed.

Lemma guest_login_writes payload : writes_only schema_ok (guest_login payload).
Proof.
  unfold guest_login. step_tree. split.
  - left. split; [done|]. eexists. by left.
  - by intros [m|id].
Qed.

Lemma post_input_writes body : writes_only schema_ok (post_input body).
Proof.
  unfold post_input. destruct (UserInput.errors body) as [|e es] eqn:Herr; [|done].
  unfold save_user_input. step_tree. split.
  - right. left. split; [done|]. by exists body.
  - by intros [m|id].
Qed.

Lemma get_latest_summary_writes P user_id : writes_only P (get_latest_summary user_id).
Proof.
  unfold get_latest_summary. step_tree. intros [m|ds]; step_tree; [done|].
  by destruct ds.
Qed.

Lemma run_workflow_writes_plans req : writes_only plan_record (run_workflow req).
Proof.
  unfold run_workflow. step_tree. intros [m|ds]; step_tree; [done|].
  destruct (make_face_analysis (workflow_base req ds)) as [face|e] eqn:Hf;
    step_tree; [|done].
  destruct (make_physique_plan (workflow_base req ds)) as [phys|e] eqn:Hp;
    step_tree; [|done].
  destruct (make_styling_plan (workflow_base req ds)) as [style|e] eqn:Hs;
    step_tree; [|done].
  destruct (make_glow_up (workflow_base req ds)) as [glow|e] eqn:Hg;
    step_tree; [|done].
  destruct (generators_plans_of _ _ _ _ _ Hf Hp Hs Hg) as (u & _ & Hplans).
  assert (Hrec : ∀ c r, (c, r) ∈ workflow_documents face phys style glow →
                        plan_record c r).
  { intros c r Hin. by exists u, face, phys, style, glow. }
  unfold workflow_documents in Hrec.
  repeat (split; [apply Hrec; repeat first [apply list_elem_of_here
                                          | apply list_elem_of_further]
                 | intros [?|?]; step_tree; [done|]]).
  done.
Qed.

Lemma writes_only_weaken {A : Type} (P Q : string → doc → Prop) (p : prog A) :
  (∀ c r, P c r → Q c r) → writes_only P p → writes_only Q p.
Proof.
  intros HPQ. induction p as [a|e|c flt limit k IH|c r k IH]; cbn [writes_only];
    try done.
  - intros Hk x. by apply IH.
  - intros [Hr Hk]. split; [by apply HPQ|]. intros x. by apply IH.
Qed.

Lemma serve_writes_schema r : writes_only schema_ok (serve r).
Proof.
  destruct r as [payload|payload|payload|body|req|user_id]; cbn [serve].
  - apply signup_writes.
  - apply login_writes.
  - apply guest_login_writes.
  - apply post_input_writes.
  - apply (writes_only_weaken plan_record); [|apply run_workflow_writes_plans].
    intros c r Hr. by right; right.
  - apply get_latest_summary_writes.
Qed.

Lemma plan_record_collection c r :
  plan_record c r →
  c ∈ ["lookmaxxingdetail"; "physiqueplan"; "stylingplan"; "glowupplan"; "analysissummary"].
Proof.
  intros (u & face & phys & style & glow & _ & Hin).
  by apply (list_elem_of_fmap_2 fst) in Hin.
Qed.

Lemma user_is_no_plan_collection :
  "user" ∉ ["lookmaxxingdetail"; "physiqueplan"; "stylingplan"; "glowupplan";
            "analysissummary"].
Proof. apply (bool_decide_unpack _). by vm_compute. Qed.

Lemma userinput_is_no_plan_collection :
  "userinput" ∉ ["lookmaxxingdetail"; "physiqueplan"; "stylingplan"; "glowupplan";
                 "analysissummary"].
Proof. apply (bool_decide_unpack _). by vm_compute. Qed.

Lemma schema_ok_collection c r : schema_ok c r → c ∈ schema_collections.
Proof.
  unfold schema_collections.
  intros [[-> _]|[[-> _]|Hplan]].
  - apply list_elem_of_here.
  - apply list_elem_of_further, list_elem_of_here.
  - apply plan_record_collection in Hplan.
    by do 2 apply list_elem_of_further.
Qed.

Lemma schema_ok_user r : schema_ok "user" r → user_record r.
Proof.
  intros [[_ Hu]|[[Hc _]|Hplan]]; [done|done|].
  apply plan_record_collection in Hplan. by apply user_is_no_plan_collection in Hplan.
Qed.

Lemma schema_ok_userinput r : schema_ok "userinput" r → input_record r.
Proof.
  intros [[Hc _]|[[_ Hi]|Hplan]]; [done|done|].
  apply plan_record_collection in Hplan.
  by apply userinput_is_no_plan_collection in Hplan.
Qed.

Lemma reachable_store_conforms s : reachable s → store_conforms schema_ok s.
Proof.
  apply (reachable_keeps schema_ok).
  - apply store_conforms_kept.
  - apply serve_writes_schema.
  - apply store_conforms_empty.
Qed.

Lemma dumped_input_height body :
  UserInput.model_dump body !! "height_cm"
  = Some (dump_opt VInt (UserInput.height_cm body)).
Proof. done. Qed.

Lemma dumped_input_weight body :
  UserInput.model_dump body !! "weight_kg"
  = Some (dump_opt VFloat (UserInput.weight_kg body)).
Proof. done. Qed.

Lemma dumped_input_age body :
  UserInput.model_dump body !! "age" = Some (dump_opt VInt (UserInput.age body)).
Proof. done. Qed.

(** X1: whatever requests arrive, however their store operations interleave
    and whichever of them fail, an input document in the store never holds a
    height, weight or age outside the ranges of [UserInput]. *)
Theorem stored_inputs_within_ranges (s : Store) (d : stored) :
  reachable s →
  d ∈ collection "userinput" s →
  (∀ h, fields d !! "height_cm" = Some (VInt h) → (100 ≤ h ≤ 250)%Z)
  ∧ (∀ x, fields d !! "weight_kg" = Some (VFloat x) →
          (Qc_of_Z 30 ≤ x ∧ x ≤ Qc_of_Z 250)%Qc)
  ∧ (∀ a, fields d !! "age" = Some (VInt a) → (13 ≤ a ≤ 100)%Z).
Proof.
  intros Hs Hd.
  destruct (schema_ok_userinput _ (reachable_store_conforms s Hs _ _ Hd))
    as (body & Hok & ->).
  apply errors_nil_iff in Hok as (Hh & Hw & Ha).
  unfold UserInput.height_cm_ok, UserInput.weight_kg_ok, UserInput.age_ok in *.
  rewrite int_field_ok_iff in Hh, Ha. rewrite float_field_ok_iff in Hw.
  rewrite dumped_input_height, dumped_input_weight, dumped_input_age.
  split; [|split].
  - intros h Heq. apply Hh. by destruct (UserInput.height_cm body); simplify_eq/=.
  - intros x Heq. apply Hw. by destruct (UserInput.weight_kg body); simplify_eq/=.
  - intros a Heq. apply Ha. by destruct (UserInput.age body); simplify_eq/=.
Qed.

Lemma stored_inputs_within_ranges_witness :
  ∃ d, collection "userinput" (store (steps (idle empty_store) one_input_served)) = [d]
       ∧ fields d !! "height_cm" = Some (VInt 170)
       ∧ (100 ≤ 170 ≤ 250)%Z.
Proof.
  exists (Stored 0 (UserInput.model_dump first_input)).
  split; [vm_compute; reflexivity|]. split; [reflexivity|].
  apply (stored_inputs_within_ranges
           (store (steps (idle empty_store) one_input_served))
           (Stored 0 (UserInput.model_dump first_input))).
  - by exists one_input_served.
  - vm_compute. apply list_elem_of_here.
  - reflexivity.
Defined.

(** X2: in every reachable store, every user record is a guest record
    (hash ["guest"], [is_guest] true) or a signup record (hash ["hash:"]
    followed by a password, [is_guest] false), and its plan is ["free"]. *)
Theorem stored_users_wellformed (s : Store) (d : stored) :
  reachable s →
  d ∈ collection "user" s →
  ∃ email,
    fields d !! "email" = Some (VStr email)
    ∧ fields d !! "plan" = Some (VStr "free")
    ∧ ((fields d !! "password_hash" = Some (VStr "guest")
        ∧ fields d !! "is_guest" = Some (VBool true)
        ∧ fields d = guest_record email)
       ∨ (∃ password,
            fields d !! "password_hash" = Some (VStr ("hash:" +:+ password))
            ∧ fields d !! "is_guest" = Some (VBool false)
            ∧ fields d = signup_record email password)).
Proof.
  intros Hs Hd.
  destruct (schema_ok_user _ (reachable_store_conforms s Hs _ _ Hd))
    as (email & [Hg|(password & Hp)]); exists email; rewrite ?Hg, ?Hp.
  - split; [done|]. split; [done|]. by left.
  - split; [done|]. split; [done|]. right. by exists password.
Qed.

(** X3: the API writes into the collections of the seven schemas and into
    no other: in every reachable store every other collection is empty. *)
Theorem only_schema_collections_written (s : Store) (c : string) :
  reachable s →
  c ∉ schema_collections →
  collection c s = [].
Proof.
  intros Hs Hc. destruct (collection c s) as [|d ds] eqn:Hcol; [done|].
  destruct Hc. apply (schema_ok_collection c (fields d)).
  apply (reachable_store_conforms s Hs). rewrite Hcol. apply list_elem_of_here.
Qed.

Lemma stored_users_wellformed_witness :
  ∃ email,
    fields (Stored 0 (guest_record "alice@example.com")) !! "email" = Some (VStr email)
    ∧ email = "alice@example.com".
Proof.
  destruct (stored_users_wellformed
              (store (steps (idle empty_store) overlapping_requests))
              (Stored 0 (guest_record "alice@example.com")))
    as (email & Hemail & _).
  - by exists overlapping_requests.
  - vm_compute. apply list_elem_of_here.
  - exists email. split; [exact Hemail|].
    cbn [fields] in Hemail. unfold guest_record in Hemail.
    rewrite email_of_dumped_user in Hemail. by injection Hemail as <-.
Defined.

Lemma only_schema_collections_written_witness :
  collection "pricing" (store (steps (idle empty_store) overlapping_requests)) = [].
Proof.
  apply only_schema_collections_written.
  - by exists overlapping_requests.
  - apply (bool_decide_unpack _). by vm_compute.
Defined.

(** ** Error responses and the store *)

Lemma run_no_http_error {A : Type} (p : prog A) :
  no_http_error p → ∀ w status detail, (run p w).1 ≠ Raised (HTTPException status detail).
Proof.
  induction p as [a|e|c flt limit k IH|c r k IH]; intros Hp w status detail;
    cbn [run fst]; try done.
  - intros [= ->]. by apply (Hp status detail).
  - destruct (outages w) as [|[m|] os]; apply IH; apply Hp.
  - destruct (outages w) as [|[m|] os]; cbn [insert_one]; apply IH; apply Hp.
Qed.

Lemma run_http_errors_before_writes {A : Type} (p : prog A) :
  http_errors_before_writes p →
  ∀ w status detail,
    (run p w).1 = Raised (HTTPException status detail) → db (run p w).2 = db w.
Proof.
  induction p as [a|e|c flt limit k IH|c r k IH]; intros Hp w status detail;
    cbn [run]; try done.
  - destruct (outages w) as [|[m|] os]; intros Hrun;
      by rewrite (IH _ (Hp _) _ status detail Hrun).
  - destruct (outages w) as [|[m|] os]; cbn [insert_one]; intros Hrun;
      by apply (run_no_http_error _ (Hp _)) in Hrun.
Qed.

Lemma serve_http_errors_before_writes r : http_errors_before_writes (serve r).
Proof.
  destruct r as [payload|payload|payload|body|req|user_id]; cbn [serve].
  - unfold signup. step_tree. intros [m|ds]; step_tree; [done|].
    destruct ds as [|d ds]; step_tree; [|done]. by intros [m|id].
  - unfold login. step_tree. intros [m|ds]; step_tree; [done|].
    destruct ds as [|d ds]; step_tree; [done|]. by destruct (decide _).
  - unfold guest_login. step_tree. by intros [m|id].
  - unfold post_input. destruct (UserInput.errors body) as [|e es]; [|done].
    unfold save_user_input. step_tree. by intros [m|id].
  - unfold run_workflow. step_tree. intros [m|ds]; step_tree; [done|].
    destruct (make_face_analysis (workflow_base req ds)); step_tree; [|done].
    destruct (make_physique_plan (workflow_base req ds)); step_tree; [|done].
    destruct (make_styling_plan (workflow_base req ds)); step_tree; [|done].
    destruct (make_glow_up (workflow_base req ds)); step_tree; [|done].
    repeat (intros [?|?]; step_tree; [done|]). done.
  - unfold get_latest_summary. step_tree. intros [m|ds]; step_tree; [done|].
    by destruct ds.
Qed.

(** X4: a request that is answered with an HTTP error (409, 404, 401, 422,
    or the 500 of a failed read) has written nothing: the store is as it was
    before the request, whichever store operations failed. *)
Theorem http_error_leaves_store (r : request) (w : World) (status : nat)
    (detail : string) :
  (run (serve r) w).1 = Raised (HTTPException status detail) →
  db (run (serve r) w).2 = db w.
Proof.
  apply run_http_errors_before_writes, serve_http_errors_before_writes.
Qed.

Lemma http_error_leaves_store_witness :
  (run (serve (POST_auth_signup alice)) (run (signup alice) fresh_world).2).1
  = Raised (HTTPException 409 "Email already exists")
  ∧ db (run (serve (POST_auth_signup alice)) (run (signup alice) fresh_world).2).2
    = db (run (signup alice) fresh_world).2.
Proof.
  assert (Hrun : (run (serve (POST_auth_signup alice))
                      (run (signup alice) fresh_world).2).1
                 = Raised (HTTPException 409 "Email already exists")).
  { vm_compute. reflexivity. }
  split; [exact Hrun|].
  exact (http_error_leaves_store _ _ _ _ Hrun).
Defined.

(** X5: login and the summary lookup never write: whatever the store
    answers, the store after the request is the store before it. *)
Theorem lookups_never_write (w : World) :
  (∀ payload, db (run (login payload) w).2 = db w)
  ∧ (∀ user_id, db (run (get_latest_summary user_id) w).2 = db w).
Proof.
  assert (Hkept : kept_by (λ _ _, False) (λ s, s = db w)) by (by intros s c r _ []).
  split.
  - intros payload.
    by apply (run_keeps _ _ (login payload) Hkept (login_writes _ payload) w).
  - intros user_id.
    by apply (run_keeps _ _ (get_latest_summary user_id) Hkept
                (get_latest_summary_writes _ user_id) w).
Qed.

(** ** Guest records *)

(** X6: a guest record cannot be logged into: when the first user record
    with the email is a guest record, login is answered 401 for every
    password. *)
Theorem guest_record_rejects_every_password (w : World) (payload : LoginRequest.t)
    (user : stored) :
  available w →
  head (filter (matches {["email" := VStr (LoginRequest.email payload)]})
          (collection "user" (db w))) = Some user →
  fields user !! "password_hash" = Some (VStr "guest") →
  run (login payload) w = (Raised (HTTPException 401 "Invalid credentials"), w).
Proof.
  intros Hav Hhead Hguest. rewrite run_login_available by done.
  rewrite find_one_head, Hhead. unfold get. rewrite Hguest. cbn [default].
  by rewrite decide_False.
Qed.

Lemma guest_record_rejects_every_password_witness :
  run (login (LoginRequest.mk "alice@example.com" "guest"))
      (run (guest_login alice_guest) fresh_world).2
  = (Raised (HTTPException 401 "Invalid credentials"),
     (run (guest_login alice_guest) fresh_world).2).
Proof.
  apply (guest_record_rejects_every_password _ _
           (Stored 0 (guest_record "alice@example.com"))).
  - reflexivity.
  - vm_compute. reflexivity.
  - reflexivity.
Defined.

(** ** Workflow runs and summary lookups *)

Lemma plans_of_user_id u face phys style glow :
  plans_of u face phys style glow →
  LookmaxxingDetail.user_id face = u
  ∧ AnalysisSummary.user_id (make_summary face phys style) = u.
Proof.
  intros (Hf & Hp & Hs & Hg).
  destruct (generators_return {["user_id" := VStr u]} u (lookup_singleton_eq _ _))
    as (f & p & s & g & Hf' & _ & _ & _ & Hu & _ & _ & _ & _).
  rewrite Hf in Hf'. injection Hf' as <-. by rewrite Hu.
Qed.

Lemma plans_of_unique u face phys style glow face' phys' style' glow' :
  plans_of u face phys style glow →
  plans_of u face' phys' style' glow' →
  face = face' ∧ phys = phys' ∧ style = style' ∧ glow = glow'.
Proof.
  intros (Hf & Hp & Hs & Hg) (Hf' & Hp' & Hs' & Hg').
  rewrite Hf in Hf'. rewrite Hp in Hp'. rewrite Hs in Hs'. rewrite Hg in Hg'.
  by simplify_eq.
Qed.

Lemma plans_of_base req s face phys style glow :
  plans_of (WorkflowRequest.user_id req) face phys style glow →
  let base := workflow_base req
    (find "userinput" {["user_id" := VStr (WorkflowRequest.user_id req)]} 1 s) in
  make_face_analysis base = Returned face
  ∧ make_physique_plan base = Returned phys
  ∧ make_styling_plan base = Returned style
  ∧ make_glow_up base = Returned glow.
Proof.
  intros (Hf & Hp & Hs & Hg) base.
  assert (Hu : base !! "user_id"
               = ({["user_id" := VStr (WorkflowRequest.user_id req)]} : doc) !! "user_id").
  { unfold base. by rewrite workflow_base_user_id, lookup_singleton_eq. }
  rewrite <- Hf, <- Hp, <- Hs, <- Hg.
  unfold make_face_analysis, make_physique_plan, make_styling_plan, make_glow_up.
  by rewrite !(user_id_of_ext _ base _ Hu).
Qed.

Lemma run_workflow_plans req w face phys style glow :
  available w →
  plans_of (WorkflowRequest.user_id req) face phys style glow →
  run (run_workflow req) w
  = (Returned (workflow_response face phys style glow),
     {| db := insert_all (workflow_documents face phys style glow) (db w);
        outages := [] |}).
Proof.
  intros Hav Hplans.
  destruct (plans_of_base req (db w) _ _ _ _ Hplans) as (Hf & Hp & Hs & Hg).
  rewrite (run_workflow_writes req w face phys style glow) by done.
  rewrite (answered_available w Hav). unfold available in Hav. rewrite Hav.
  by rewrite write_all_available.
Qed.

(** X7: the payload of a workflow run is the same for every store: it is
    the plans and the summary the generators give for the request's user id,
    whatever inputs the user has stored. *)
Theorem workflow_response_ignores_store (req : WorkflowRequest.t) (w1 w2 : World)
    face phys style glow :
  available w1 →
  available w2 →
  plans_of (WorkflowRequest.user_id req) face phys style glow →
  (run (run_workflow req) w1).1 = Returned (workflow_response face phys style glow)
  ∧ (run (run_workflow req) w1).1 = (run (run_workflow req) w2).1.
Proof.
  intros Hav1 Hav2 Hplans.
  by rewrite !(run_workflow_plans req _ face phys style glow).
Qed.

Lemma plans_of_u1 : plans_of "u1" face_u1 phys_u1 style_u1 glow_u1.
Proof. by repeat split. Qed.

Lemma workflow_response_ignores_store_witness :
  (run (run_workflow (WorkflowRequest.mk "u1")) fresh_world).1
  = (run (run_workflow (WorkflowRequest.mk "u1")) two_inputs_world).1.
Proof.
  destruct (workflow_response_ignores_store (WorkflowRequest.mk "u1")
              fresh_world two_inputs_world face_u1 phys_u1 style_u1 glow_u1)
    as [_ Heq]; [reflexivity | reflexivity | apply plans_of_u1 | exact Heq].
Defined.

Lemma run_get_latest_summary_available w user_id :
  available w →
  run (get_latest_summary user_id) w =
  match find "analysissummary" {["user_id" := VStr user_id]} 1 (db w) with
  | [] => (Raised (HTTPException 404 "No summary yet"), w)
  | d :: _ => (Returned (<["_id" := JValue (VStr (str_oid (oid d)))]>
                         (JValue <$> fields d)), w)
  end.
Proof.
  intros Hav. unfold get_latest_summary.
  rewrite run_bind, run_guarded_read, (answered_available w Hav).
  unfold available in Hav. rewrite Hav.
  by destruct (find "analysissummary" _ 1 (db w)).
Qed.

Lemma dumped_summary_user_id a :
  AnalysisSummary.model_dump a !! "user_id" = Some (VStr (AnalysisSummary.user_id a)).
Proof. unfold AnalysisSummary.model_dump. by rewrite lookup_insert_eq. Qed.

(** X8: for a user with no stored summary the lookup is answered 404; after
    a workflow run for that user it returns the summary that run stored: the
    identifier of the fifth insert of the run as a string under ["_id"], and
    the summary's fields. *)
Theorem summary_after_workflow (w : World) (u : string) face phys style glow :
  available w →
  plans_of u face phys style glow →
  (∀ d, d ∈ collection "analysissummary" (db w) → fields d !! "user_id" ≠ Some (VStr u)) →
  let w' := (run (run_workflow (WorkflowRequest.mk u)) w).2 in
  run (get_latest_summary u) w = (Raised (HTTPException 404 "No summary yet"), w)
  ∧ run (get_latest_summary u) w'
    = (Returned (<["_id" := JValue (VStr (str_oid (next_oid (db w) + 4)))]>
                 (JValue <$> AnalysisSummary.model_dump (make_summary face phys style))),
       w').
Proof.
  intros Hav Hplans Hnone w'. split.
  - rewrite run_get_latest_summary_available by done.
    by rewrite (proj2 (find_nil_iff _ _ _ _) Hnone).
  - subst w'. rewrite (run_workflow_plans _ w face phys style glow) by done.
    cbn [snd]. rewrite run_get_latest_summary_available by done. cbn [db].
    assert (Hcol : collection "analysissummary"
                     (insert_all (workflow_documents face phys style glow) (db w))
                   = collection "analysissummary" (db w)
                     ++ [Stored (next_oid (db w) + 4)
                           (AnalysisSummary.model_dump (make_summary face phys style))]).
    { by apply collection_insert_all; [apply workflow_collections_NoDup|]. }
    unfold find. rewrite Hcol, filter_app, (filter_nil_of_free _ _ _ _ Hnone).
    rewrite filter_cons_True; [by rewrite filter_nil|].
    apply matches_singleton. cbn [fields]. rewrite dumped_summary_user_id.
    by destruct (plans_of_user_id _ _ _ _ _ Hplans) as [_ ->].
Qed.

Lemma summary_after_workflow_witness :
  run (get_latest_summary "u1") fresh_world
  = (Raised (HTTPException 404 "No summary yet"), fresh_world)
  ∧ (run (get_latest_summary "u1")
         (run (run_workflow (WorkflowRequest.mk "u1")) fresh_world).2).1
    = Returned (<["_id" := JValue (VStr "4")]>
                (JValue <$> AnalysisSummary.model_dump
                              (make_summary face_u1 phys_u1 style_u1))).
Proof.
  destruct (summary_after_workflow fresh_world "u1" face_u1 phys_u1 style_u1 glow_u1)
    as [Hbefore Hafter].
  - reflexivity.
  - apply plans_of_u1.
  - intros d Hd. by apply not_elem_of_nil in Hd.
  - split; [exact Hbefore|]. by rewrite Hafter.
Defined.

Lemma summary_record_of_plans r :
  plan_record "analysissummary" r →
  ∃ u face phys style glow,
    plans_of u face phys style glow
    ∧ r = AnalysisSummary.model_dump (make_summary face phys style).
Proof.
  intros (u & face & phys & style & glow & Hplans & Hin).
  exists u, face, phys, style, glow. split; [done|].
  unfold workflow_documents in Hin.
  repeat (apply elem_of_cons in Hin as [Hin|Hin]; [by simplify_eq|]).
  by apply not_elem_of_nil in Hin.
Qed.

(** X9: the text of a user's summary never varies: in every reachable
    store, every summary document of a user holds exactly the summary the
    generators give for that user id. *)
Theorem stored_summary_is_fixed (s : Store) (d : stored) (u : string)
    face phys style glow :
  reachable s →
  plans_of u face phys style glow →
  d ∈ collection "analysissummary" s →
  fields d !! "user_id" = Some (VStr u) →
  fields d = AnalysisSummary.model_dump (make_summary face phys style).
Proof.
  intros Hs Hplans Hd Hu.
  assert (Hrec : plan_record "analysissummary" (fields d)).
  { destruct (reachable_store_conforms s Hs _ _ Hd) as [[Hc _]|[[Hc _]|Hp]]; done. }
  destruct (summary_record_of_plans _ Hrec) as (u' & f & p & st & g & Hplans' & Heq).
  rewrite Heq in Hu. rewrite dumped_summary_user_id in Hu.
  destruct (plans_of_user_id _ _ _ _ _ Hplans') as [_ Hu'].
  rewrite Hu' in Hu. injection Hu as ->.
  destruct (plans_of_unique _ _ _ _ _ _ _ _ _ Hplans Hplans') as (-> & -> & -> & _).
  exact Heq.
Qed.

Lemma stored_summary_is_fixed_witness :
  ∃ d,
    collection "analysissummary" (store (steps (idle empty_store) one_workflow_served))
    = [d]
    ∧ fields d = AnalysisSummary.model_dump (make_summary face_u1 phys_u1 style_u1).
Proof.
  exists (Stored 4 (AnalysisSummary.model_dump (make_summary face_u1 phys_u1 style_u1))).
  split; [vm_compute; reflexivity|].
  apply (stored_summary_is_fixed (store (steps (idle empty_store) one_workflow_served))
           _ "u1" face_u1 phys_u1 style_u1 glow_u1).
  - by exists one_workflow_served.
  - apply plans_of_u1.
  - vm_compute. apply list_elem_of_here.
  - reflexivity.
Defined.

(** ** Requests served in turn *)

Lemma guest_is_no_signup_record email email' password :
  guest_record email ≠ signup_record email' password.
Proof. apply (doc_ne_by_field _ _ "is_guest"). done. Qed.

Lemma signup_record_email email password email' password' :
  signup_record email password = signup_record email' password' → email = email'.
Proof.
  intros Heq. apply (f_equal (λ r : doc, r !! "email")) in Heq.
  unfold signup_record in Heq. rewrite !email_of_dumped_user in Heq.
  by injection Heq.
Qed.

Lemma serve_writes_guests r :
  (∀ payload, r ≠ POST_auth_signup payload) →
  writes_only (λ c rec, c = "user" → ∃ email, rec = guest_record email) (serve r).
Proof.
  intros Hr. destruct r as [payload|payload|payload|body|req|user_id]; cbn [serve].
  - by destruct (Hr payload).
  - apply login_writes.
  - unfold guest_login. step_tree. split; [by eexists|]. by intros [m|id].
  - unfold post_input. destruct (UserInput.errors body) as [|e es]; [|done].
    unfold save_user_input. step_tree. split; [done|]. by intros [m|id].
  - apply (writes_only_weaken plan_record); [|apply run_workflow_writes_plans].
    intros c rec Hrec ->. apply plan_record_collection in Hrec.
    by apply user_is_no_plan_collection in Hrec.
  - apply get_latest_summary_writes.
Qed.

Lemma lookup_appended {A : Type} (l : list A) (x y : A) (i : nat) :
  (l ++ [x]) !! i = Some y → l !! i = Some y ∨ (i = length l ∧ y = x).
Proof.
  intros Hi. destruct (decide (i < length l)%nat) as [Hlt|Hge].
  - left. by rewrite lookup_app_l in Hi.
  - right. rewrite lookup_app_r in Hi by lia.
    destruct (i - length l)%nat as [|n] eqn:Hn; [|done].
    injection Hi as <-. split; [lia|done].
Qed.

Lemma signups_first_guest_kept :
  kept_by (λ c rec, c = "user" → ∃ email, rec = guest_record email) signups_first.
Proof.
  intros s c rec Hs Hrec i j d d' email password Hi Hj Hlt Hd.
  destruct (decide (c = "user")) as [->|Hne].
  - destruct (Hrec eq_refl) as [guest ->].
    rewrite collection_insert_one in Hi, Hj.
    apply lookup_appended in Hi as [Hi|[-> ->]].
    + apply lookup_appended in Hj as [Hj|[-> _]].
      * by apply (Hs i j d d' email password).
      * apply lookup_lt_Some in Hi. lia.
    + cbn [fields] in Hd. by apply guest_is_no_signup_record in Hd.
  - rewrite collection_insert_one_ne in Hi, Hj by done.
    by apply (Hs i j d d' email password).
Qed.

Lemma signups_first_signup_kept s email password :
  find "user" {["email" := VStr email]} 1 s = [] →
  signups_first s →
  signups_first (insert_one "user" (signup_record email password) s).2.
Proof.
  intros Hfree Hs i j d d' email' password' Hi Hj Hlt Hd.
  rewrite collection_insert_one in Hi, Hj.
  apply lookup_appended in Hj as [Hj|[-> _]].
  - apply lookup_appended in Hi as [Hi|[-> ->]].
    + by apply (Hs i j d d' email' password').
    + cbn [fields] in Hd. apply signup_record_email in Hd as <-.
      apply (proj1 (find_nil_iff _ _ _ _) Hfree).
      by apply list_elem_of_lookup_2 in Hj.
  - apply lookup_appended in Hi as [Hi|[-> _]]; [|lia].
    apply lookup_lt_Some in Hi. lia.
Qed.

Lemma run_create_db {A : Type} c r (f : string → prog A) w :
  (∀ id w1, db (run (f id) w1).2 = db w1) →
  db (run (create_document c r ≫= f) w).2 = db w
  ∨ db (run (create_document c r ≫= f) w).2 = (insert_one c r (db w)).2.
Proof.
  intros Hf. rewrite run_bind, run_create_document.
  destruct (outages w) as [|[m|] os]; [right|by left|right]; by rewrite Hf.
Qed.

Lemma run_signup_db payload w :
  db (run (signup payload) w).2 = db w
  ∨ (find "user" {["email" := VStr (SignupRequest.email payload)]} 1 (db w) = []
     ∧ db (run (signup payload) w).2
       = (insert_one "user"
            (signup_record (SignupRequest.email payload) (SignupRequest.password payload))
            (db w)).2).
Proof.
  unfold signup. rewrite run_bind, run_guarded_read.
  destruct (outages w) as [|[m|] os] eqn:Ho; [|by left|];
    (destruct (find "user" _ 1 (db w)) as [|d ds] eqn:Hf; [|by left]);
    match goal with
    | |- context [run (create_document ?c ?r ≫= ?f) ?w0] =>
        destruct (run_create_db c r f w0) as [Hdb|Hdb]; [done| |];
          rewrite Hdb; [by left | by right]
    end.
Qed.

Lemma in_turn_signups_first s : in_turn s → signups_first s.
Proof.
  intros Hs. induction Hs as [|s r os Hs IH].
  - intros i j d d' email password Hi. done.
  - assert (Hcases : (∃ payload, r = POST_auth_signup payload)
                     ∨ ∀ payload, r ≠ POST_auth_signup payload).
    { destruct r; [left; by eexists | right; done ..]. }
    destruct Hcases as [[payload ->]|Hr].
    + cbn [serve].
      destruct (run_signup_db payload {| db := s; outages := os |}) as [->|[Hfree ->]];
        [done|]. by apply signups_first_signup_kept.
    + assert (Hw : writes_only
                     (λ c rec, c = "user" → ∃ email, rec = guest_record email) (serve r)).
      { by apply serve_writes_guests. }
      by apply (run_keeps _ _ _ signups_first_guest_kept Hw).
Qed.

Lemma head_filter_first {A : Type} (P : A → Prop) `{∀ x, Decision (P x)}
    (l : list A) (i : nat) (x : A) :
  l !! i = Some x → P x →
  (∀ j y, l !! j = Some y → (j < i)%nat → ¬ P y) →
  head (filter P l) = Some x.
Proof.
  revert i. induction l as [|a l IH]; intros i Hi Hx Hbefore; [done|].
  destruct i as [|i].
  - injection Hi as ->. by rewrite filter_cons_True.
  - rewrite filter_cons_False by (apply (Hbefore 0 a eq_refl); lia).
    apply (IH i); [done|done|].
    intros j y Hj Hlt. apply (Hbefore (S j) y Hj). lia.
Qed.

Lemma login_reads_signup_record (s : Store) (d : stored) (email password : string) :
  in_turn s →
  d ∈ collection "user" s →
  fields d = signup_record email password →
  run (login (LoginRequest.mk email password)) {| db := s; outages := [] |}
  = (Returned (<["user_id" := JValue (VStr (str_oid (oid d)))]>
               (<["email" := JValue (VStr email)]> ∅)),
     {| db := s; outages := [] |}).
Proof.
  intros Hs Hd Hrec. apply list_elem_of_lookup_1 in Hd as [i Hi].
  pose proof (in_turn_signups_first s Hs) as Hfirst.
  assert (Hhead : head (filter (matches {["email" := VStr email]}) (collection "user" s))
                  = Some d).
  { apply (head_filter_first _ _ i); [done| |].
    - apply matches_singleton. rewrite Hrec. apply email_of_dumped_user.
    - intros j y Hj Hlt Hy. apply matches_singleton in Hy.
      by apply (Hfirst i j d y email password). }
  rewrite run_login_available by done. cbn [db LoginRequest.email LoginRequest.password].
  rewrite find_one_head, Hhead. rewrite Hrec.
  unfold signup_record. rewrite password_hash_of_dumped_user, get_email_of_dumped_user.
  cbn [User.password_hash User.email]. by rewrite decide_True.
Qed.

(** X10: when requests are served one after the other, a signup stays
    usable: in every store so reached, a login with the email and password of
    any signup record in it returns that record's identifier, whatever guest
    logins and failed operations came in between. *)
Theorem login_after_signup_in_turn (s : Store) (d : stored) (email password : string) :
  in_turn s →
  d ∈ collection "user" s →
  fields d = signup_record email password →
  run (login (LoginRequest.mk email password)) {| db := s; outages := [] |}
  = (Returned (<["user_id" := JValue (VStr (str_oid (oid d)))]>
               (<["email" := JValue (VStr email)]> ∅)),
     {| db := s; outages := [] |}).
Proof. apply login_reads_signup_record. Qed.

(** X11: when requests are served one after the other, no two signup
    records share an email. *)
Theorem signup_emails_unique_in_turn (s : Store) (i j : nat) (d1 d2 : stored)
    (email p1 p2 : string) :
  in_turn s →
  collection "user" s !! i = Some d1 →
  collection "user" s !! j = Some d2 →
  fields d1 = signup_record email p1 →
  fields d2 = signup_record email p2 →
  i = j.
Proof.
  intros Hs Hi Hj H1 H2. pose proof (in_turn_signups_first s Hs) as Hfirst.
  destruct (Nat.lt_trichotomy i j) as [Hlt|[Heq|Hgt]]; [|done|].
  - destruct (Hfirst j i d2 d1 email p2 Hj Hi Hlt H2).
    rewrite H1. apply email_of_dumped_user.
  - destruct (Hfirst i j d1 d2 email p1 Hi Hj Hgt H1).
    rewrite H2. apply email_of_dumped_user.
Qed.

Lemma store_after_three_in_turn : in_turn store_after_three.
Proof. unfold store_after_three. repeat apply in_turn_serve. apply in_turn_empty. Qed.

Lemma store_after_three_users :
  collection "user" store_after_three
  = [Stored 0 (guest_record "alice@example.com");
     Stored 1 (signup_record "bob@example.com" "hunter2");
     Stored 2 (guest_record "bob@example.com")].
Proof. vm_compute. reflexivity. Qed.

Lemma login_after_signup_in_turn_witness :
  (run (login (LoginRequest.mk "bob@example.com" "hunter2"))
       {| db := store_after_three; outages := [] |}).1
  = Returned (<["user_id" := JValue (VStr "1")]>
              (<["email" := JValue (VStr "bob@example.com")]> ∅)).
Proof.
  rewrite (login_after_signup_in_turn store_after_three
             (Stored 1 (signup_record "bob@example.com" "hunter2"))
             "bob@example.com" "hunter2").
  - reflexivity.
  - apply store_after_three_in_turn.
  - rewrite store_after_three_users. apply list_elem_of_further, list_elem_of_here.
  - reflexivity.
Defined.

Lemma signup_emails_unique_in_turn_witness :
  collection "user" store_after_three !! 1
  = Some (Stored 1 (signup_record "bob@example.com" "hunter2"))
  ∧ 1 = 1.
Proof.
  assert (Hbob : collection "user" store_after_three !! 1
                 = Some (Stored 1 (signup_record "bob@example.com" "hunter2"))).
  { by rewrite store_after_three_users. }
  split; [exact Hbob|].
  exact (signup_emails_unique_in_turn store_after_three 1 1 _ _
           "bob@example.com" "hunter2" "hunter2"
           store_after_three_in_turn Hbob Hbob eq_refl eq_refl).
Defined.

(** X12: the email check of signup and its insert are two store operations:
    two signups for one email served at the same time can both pass the
    check, both get 200 with their own identifiers, and leave two signup
    records with that email, of which login only ever reads the first. *)
Theorem overlapping_signups_both_succeed :
  ∃ (s : Store) (d1 d2 : stored),
    reachable s
    ∧ collection "user" s = [d1; d2]
    ∧ fields d1 = signup_record "alice@example.com" "s3cret"
    ∧ fields d2 = signup_record "alice@example.com" "other"
    ∧ sent (steps (idle empty_store) overlapping_signups)
      = [Returned (<["user_id" := JValue (VStr (str_oid (oid d1)))]>
                   (<["email" := JValue (VStr "alice@example.com")]> ∅));
         Returned (<["user_id" := JValue (VStr (str_oid (oid d2)))]>
                   (<["email" := JValue (VStr "alice@example.com")]> ∅))]
    ∧ oid d1 ≠ oid d2
    ∧ (run (login (LoginRequest.mk "alice@example.com" "other"))
           {| db := s; outages := [] |}).1
      = Raised (HTTPException 401 "Invalid credentials").
Proof.
  exists (store (steps (idle empty_store) overlapping_signups)).
  eexists (Stored 0 _), (Stored 1 _).
  split; [by exists overlapping_signups|].
  split; [vm_compute; reflexivity|].
  split; [reflexivity|]. split; [reflexivity|].
  split; [vm_compute; reflexivity|].
  split; [done|].
  vm_compute; reflexivity.
Qed.

(** ** The diagnostic route *)

Lemma env_truthy_iff env k :
  env_truthy env k = true ↔ ∃ v, env !! k = Some v ∧ v ≠ "".
Proof.
  unfold env_truthy. destruct (env !! k) as [v|].
  - rewrite negb_true_iff, bool_decide_eq_false. split.
    + intros Hv. by exists v.
    + by intros (v' & [= <-] & Hv).
  - split; [done|]. by intros (v & Hv & _).
Qed.

Lemma test_database_url handle env :
  test_database handle env !! "database_url"
  = Some (VStr (if env_truthy env "DATABASE_URL" then "✅ Set" else "❌ Not Set")).
Proof. by destruct handle as [[n [cs|e]]|]. Qed.

Lemma test_database_name handle env :
  test_database handle env !! "database_name"
  = Some (VStr (if env_truthy env "DATABASE_NAME" then "✅ Set" else "❌ Not Set")).
Proof. by destruct handle as [[n [cs|e]]|]. Qed.

(** X13: the [database_url] and [database_name] entries of the diagnostic
    report say only whether the environment variable is set to a non-empty
    string; they never show the handle's name or depend on the handle at
    all, and a variable set to the empty string is reported as not set. *)
Theorem test_database_reports_environment (handle : option Database)
    (env : gmap string string) :
  (test_database handle env !! "database_url" = Some (VStr "✅ Set")
   ↔ ∃ v, env !! "DATABASE_URL" = Some v ∧ v ≠ "")
  ∧ (test_database handle env !! "database_name" = Some (VStr "✅ Set")
     ↔ ∃ v, env !! "DATABASE_NAME" = Some v ∧ v ≠ "")
  ∧ (test_database handle env !! "database_url" = Some (VStr "✅ Set")
     ∨ test_database handle env !! "database_url" = Some (VStr "❌ Not Set"))
  ∧ (test_database handle env !! "database_name" = Some (VStr "✅ Set")
     ∨ test_database handle env !! "database_name" = Some (VStr "❌ Not Set"))
  ∧ ∀ other,
      test_database other env !! "database_url"
      = test_database handle env !! "database_url"
      ∧ test_database other env !! "database_name"
        = test_database handle env !! "database_name".
Proof.
  rewrite !test_database_url, !test_database_name, <- !env_truthy_iff.
  split; [|split; [|split; [|split]]].
  - by destruct (env_truthy env "DATABASE_URL").
  - by destruct (env_truthy env "DATABASE_NAME").
  - destruct (env_truthy env "DATABASE_URL"); [by left | by right].
  - destruct (env_truthy env "DATABASE_NAME"); [by left | by right].
  - intros other. by rewrite test_database_url, test_database_name.
Qed.

Lemma str_prefix_is_prefix n : ∀ s, ∃ rest, s = str_prefix n s +:+ rest.
Proof.
  intros s. revert n. induction s as [|a s IH]; intros n; [by exists ""|].
  cbn [str_prefix]. destruct (is_continuation a).
  - destruct (IH n) as [rest Hrest]. exists rest.
    change (String a s = String a (str_prefix n s +:+ rest)). by f_equal.
  - destruct n as [|n]; [by exists (String a s)|].
    destruct (IH n) as [rest Hrest]. exists rest.
    change (String a s = String a (str_prefix n s +:+ rest)). by f_equal.
Qed.

Lemma str_prefix_len n : ∀ s, (str_len (str_prefix n s) ≤ n)%nat.
Proof.
  intros s. revert n. induction s as [|a s IH]; intros n; [cbn; lia|].
  cbn [str_prefix]. destruct (is_continuation a) eqn:Ha.
  - cbn [str_len]. rewrite Ha. apply IH.
  - destruct n as [|n]; [cbn; lia|]. cbn [str_len]. rewrite Ha.
    specialize (IH n). lia.
Qed.

Lemma str_prefix_short n : ∀ s, (str_len s ≤ n)%nat → str_prefix n s = s.
Proof.
  intros s. revert n. induction s as [|a s IH]; intros n Hlen; [done|].
  cbn [str_prefix str_len] in *. destruct (is_continuation a).
  - by rewrite IH.
  - destruct n as [|n]; [lia|]. rewrite IH; [done|lia].
Qed.

(** X14: the diagnostic report lists at most ten collections: the first ten
    names the handle lists, and none when there is no handle or the listing
    fails; a failed listing is still reported as connected, with at most
    the first 50 characters of the error in the [database] entry. *)
Theorem test_database_listing (handle : option Database) (env : gmap string string) :
  ∃ listed,
    test_database handle env !! "collections" = Some (VList listed)
    ∧ (length listed ≤ 10)%nat
    ∧ match handle with
      | None =>
          listed = []
          ∧ test_database handle env !! "connection_status" = Some (VStr "Not Connected")
          ∧ test_database handle env !! "database"
            = Some (VStr "⚠️  Available but not initialized")
      | Some h =>
          test_database handle env !! "connection_status" = Some (VStr "Connected")
          ∧ match list_collection_names h with
            | Returned collections =>
                listed = take 10 collections
                ∧ test_database handle env !! "database"
                  = Some (VStr "✅ Connected & Working")
            | Raised e =>
                listed = []
                ∧ test_database handle env !! "database"
                  = Some (VStr ("⚠️  Connected but Error: "
                                +:+ str_prefix 50 (str_exn e)))
                ∧ (str_len (str_prefix 50 (str_exn e)) ≤ 50)%nat
                ∧ ((str_len (str_exn e) ≤ 50)%nat →
                   str_prefix 50 (str_exn e) = str_exn e)
            end
      end.
Proof.
  destruct handle as [[n [cs|e]]|].
  - exists (take 10 cs). split; [done|]. split; [|done].
    rewrite length_take. lia.
  - exists []. split; [done|]. split; [cbn; lia|].
    split; [done|]. split; [done|]. split; [done|].
    split; [apply str_prefix_len | apply str_prefix_short].
  - exists []. split; [done|]. split; [cbn; lia|done].
Qed.

Lemma test_database_reports_environment_witness :
  test_database (Some listing_twelve) env_url_only !! "database_url"
  = Some (VStr "✅ Set")
  ∧ test_database (Some listing_twelve) env_url_only !! "database_name"
    = Some (VStr "❌ Not Set").
Proof.
  destruct (test_database_reports_environment (Some listing_twelve) env_url_only)
    as (Hurl & Hname & _ & [Hset|Hunset] & _).
  - exfalso. apply Hname in Hset as (v & Hv & Hne).
    vm_compute in Hv. injection Hv as <-. done.
  - split; [|exact Hunset]. apply Hurl. by exists "mongodb://localhost".
Defined.

Lemma test_database_listing_witness :
  test_database (Some listing_twelve) env_url_only !! "collections"
  = Some (VList ["c01"; "c02"; "c03"; "c04"; "c05"; "c06"; "c07"; "c08"; "c09"; "c10"])
  ∧ test_database (Some listing_fails) env_url_only !! "database"
    = Some (VStr "⚠️  Connected but Error: not authorized")
  ∧ test_database (Some listing_fails_accented) env_url_only !! "database"
    = Some (VStr ("⚠️  Connected but Error: " +:+ fifty_accents)).
Proof.
  destruct (test_database_listing (Some listing_twelve) env_url_only)
    as (l1 & Hl1 & _ & _ & -> & _).
  destruct (test_database_listing (Some listing_fails) env_url_only)
    as (l2 & _ & _ & _ & _ & Hdb & _).
  destruct (test_database_listing (Some listing_fails_accented) env_url_only)
    as (l3 & _ & _ & _ & _ & Hdb' & _).
  split; [exact Hl1|]. split; [exact Hdb | exact Hdb'].
Defined.

(** ** Passwords *)

Lemma substring_whole s : String.substring 0 (String.length s) s = s.
Proof. induction s as [|a s IH]; [done|]. cbn. by rewrite IH. Qed.

Lemma plaintext_of_hash password : plaintext_of ("hash:" +:+ password) = password.
Proof.
  unfold plaintext_of. simpl. rewrite ?Nat.sub_0_r. apply substring_whole.
Qed.

Lemma hash_inj p1 p2 : "hash:" +:+ p1 = "hash:" +:+ p2 → p1 = p2.
Proof. intros Heq. by rewrite <- (plaintext_of_hash p1), Heq, plaintext_of_hash. Qed.

(** X15: signup stores the password itself: the hash of the user record a
    successful signup appends, with its first five characters taken off, is
    the plaintext password of the request. *)
Theorem stored_hash_reveals_password (w : World) (payload : SignupRequest.t) :
  available w →
  (∀ d, d ∈ collection "user" (db w) →
        fields d !! "email" ≠ Some (VStr (SignupRequest.email payload))) →
  ∃ d hash,
    last (collection "user" (db (run (signup payload) w).2)) = Some d
    ∧ fields d !! "password_hash" = Some (VStr hash)
    ∧ plaintext_of hash = SignupRequest.password payload.
Proof.
  intros Hav Hfree. rewrite run_signup_free by done. cbn [snd db].
  rewrite collection_insert_one, last_snoc.
  eexists _, _. split; [done|]. split; [done|]. apply plaintext_of_hash.
Qed.

Lemma stored_hash_reveals_password_witness :
  ∃ d, last (collection "user" (db (run (signup alice) fresh_world).2)) = Some d
       ∧ fields d !! "password_hash" = Some (VStr "hash:s3cret")
       ∧ plaintext_of "hash:s3cret" = "s3cret".
Proof.
  destruct (stored_hash_reveals_password fresh_world alice eq_refl)
    as (d & hash & Hlast & Hhash & Hplain).
  { intros d Hd. by apply no_users_yet. }
  exists d. split; [exact Hlast|].
  assert (Hd : d = Stored 0 (signup_record "alice@example.com" "s3cret")).
  { vm_compute in Hlast. by injection Hlast as <-. }
  subst d. split; reflexivity.
Defined.

(** X16: against a signup record login accepts the password of the signup
    and no other: when the first user record with the email is the signup
    record of password [password], a login is answered with the record's
    identifier if it gives exactly [password], and with 401 otherwise. *)
Theorem login_accepts_exactly_the_password (w : World) (user : stored)
    (email password tried : string) :
  available w →
  head (filter (matches {["email" := VStr email]}) (collection "user" (db w)))
    = Some user →
  fields user = signup_record email password →
  (tried = password →
   run (login (LoginRequest.mk email tried)) w
   = (Returned (<["user_id" := JValue (VStr (str_oid (oid user)))]>
                (<["email" := JValue (VStr email)]> ∅)), w))
  ∧ (tried ≠ password →
     run (login (LoginRequest.mk email tried)) w
     = (Raised (HTTPException 401 "Invalid credentials"), w)).
Proof.
  intros Hav Hhead Hrec.
  rewrite run_login_available by done.
  cbn [LoginRequest.email LoginRequest.password].
  rewrite find_one_head, Hhead, Hrec. unfold signup_record.
  rewrite password_hash_of_dumped_user, get_email_of_dumped_user.
  cbn [User.password_hash User.email]. split.
  - intros ->. by rewrite decide_True.
  - intros Hne. rewrite decide_False; [done|].
    intros [= Heq]. apply Hne. symmetry. by apply hash_inj.
Qed.

Lemma login_accepts_exactly_the_password_witness :
  run (login (LoginRequest.mk "alice@example.com" "S3cret"))
      (run (signup alice) fresh_world).2
  = (Raised (HTTPException 401 "Invalid credentials"), (run (signup alice) fresh_world).2).
Proof.
  destruct (login_accepts_exactly_the_password (run (signup alice) fresh_world).2
              (Stored 0 (signup_record "alice@example.com" "s3cret"))
              "alice@example.com" "s3cret" "S3cret") as [_ Hwrong].
  - reflexivity.
  - vm_compute. reflexivity.
  - reflexivity.
  - by apply Hwrong.
Defined.

(** ** Store traffic of a request *)

Lemma run_within {A : Type} (p : prog A) : ∀ reads writes w,
  within reads writes p →
  ∃ n, (n ≤ reads + writes)%nat ∧ outages (run p w).2 = drop n (outages w).
Proof.
  induction p as [a|e|c flt limit k IH|c r k IH]; intros reads writes w Hp; cbn [run].
  - exists 0%nat. split; [lia|done].
  - exists 0%nat. split; [lia|done].
  - destruct reads as [|reads]; [done|]. cbn [within] in Hp.
    destruct (outages w) as [|[m|] os] eqn:Ho.
    + destruct (IH (Done (find c flt limit (db w))) reads writes
                  {| db := db w; outages := tail [] |} (Hp _)) as (n & Hn & ->).
      exists n. split; [lia|]. cbn. by rewrite !drop_nil.
    + destruct (IH (Failed m) reads writes {| db := db w; outages := os |} (Hp _))
        as (n & Hn & ->). exists (S n). split; [lia|done].
    + destruct (IH (Done (find c flt limit (db w))) reads writes
                  {| db := db w; outages := tail (None :: os) |} (Hp _))
        as (n & Hn & ->). exists (S n). split; [lia|done].
  - destruct writes as [|writes]; [done|]. cbn [within] in Hp.
    destruct (outages w) as [|[m|] os] eqn:Ho; cbn [insert_one].
    + destruct (IH (Done (str_oid (next_oid (db w)))) reads writes
                  {| db := (insert_one c r (db w)).2; outages := tail [] |} (Hp _))
        as (n & Hn & Hrun).
      exists n. split; [lia|]. cbn [insert_one snd] in Hrun. rewrite Hrun.
      cbn. by rewrite !drop_nil.
    + destruct (IH (Failed m) reads writes {| db := db w; outages := os |} (Hp _))
        as (n & Hn & ->). exists (S n). split; [lia|done].
    + destruct (IH (Done (str_oid (next_oid (db w)))) reads writes
                  {| db := (insert_one c r (db w)).2; outages := tail (None :: os) |}
                  (Hp _))
        as (n & Hn & Hrun).
      exists (S n). split; [lia|]. cbn [insert_one snd] in Hrun. by rewrite Hrun.
Qed.

Ltac step_within :=
  cbn [within bind try_except get_documents create_document mbind mret prog_bind
       prog_ret internal_error lift].

(** X17: whatever the store answers, signup issues at most one lookup and
    one insert, login and the summary lookup one lookup and no insert, guest
    login and [/input] one insert and no lookup, and a workflow run one
    lookup and five inserts; so a request takes at most that many answers
    from the store. *)
Theorem store_operations_bounded (r : request) (w : World) :
  within (store_budget r).1 (store_budget r).2 (serve r)
  ∧ ∃ n, (n ≤ (store_budget r).1 + (store_budget r).2)%nat
         ∧ outages (run (serve r) w).2 = drop n (outages w).
Proof.
  assert (Hwithin : within (store_budget r).1 (store_budget r).2 (serve r)).
  { destruct r as [payload|payload|payload|body|req|user_id];
      cbn [serve store_budget fst snd].
    - unfold signup. step_within. intros [m|ds]; step_within; [done|].
      destruct ds as [|d ds]; step_within; [|done]. by intros [m|id].
    - unfold login. step_within. intros [m|ds]; step_within; [done|].
      destruct ds as [|d ds]; step_within; [done|]. by destruct (decide _).
    - unfold guest_login. step_within. by intros [m|id].
    - unfold post_input. destruct (UserInput.errors body) as [|e es]; [|done].
      unfold save_user_input. step_within. by intros [m|id].
    - unfold run_workflow. step_within. intros [m|ds]; step_within; [done|].
      destruct (make_face_analysis (workflow_base req ds)); step_within; [|done].
      destruct (make_physique_plan (workflow_base req ds)); step_within; [|done].
      destruct (make_styling_plan (workflow_base req ds)); step_within; [|done].
      destruct (make_glow_up (workflow_base req ds)); step_within; [|done].
      repeat (intros [?|?]; step_within; [done|]). done.
    - unfold get_latest_summary. step_within. intros [m|ds]; step_within; [done|].
      by destruct ds. }
  split; [exact Hwithin|]. by apply run_within.
Qed.

(** ** Serving in turn is one way of interleaving *)

Lemma steps_app c es1 es2 : steps c (es1 ++ es2) = steps (steps c es1) es2.
Proof. unfold steps. apply foldl_app. Qed.

Lemma delete_last {A : Type} (pre : list A) (x : A) :
  delete (length pre) (pre ++ [x]) = pre.
Proof. by rewrite delete_middle, app_nil_r. Qed.

Lemma insert_last {A : Type} (pre : list A) (x y : A) :
  <[length pre := y]> (pre ++ [x]) = pre ++ [y].
Proof. rewrite insert_app_r_alt by done. by rewrite Nat.sub_diag. Qed.

Lemma run_as_steps (p : prog response) : ∀ s os pre answered_so_far,
  ∃ es,
    steps {| store := s; pool := pre ++ [p]; sent := answered_so_far |} es
    = {| store := db (run p {| db := s; outages := os |}).2;
         pool := pre;
         sent := answered_so_far ++ [(run p {| db := s; outages := os |}).1] |}.
Proof.
  induction p as [a|e|c flt limit k IH|c r k IH]; intros s os pre sent0.
  - exists [Advance (length pre) None]. cbn [steps foldl step pool].
    rewrite list_lookup_middle by done. cbn [run fst snd db store sent].
    by rewrite delete_last.
  - exists [Advance (length pre) None]. cbn [steps foldl step pool].
    rewrite list_lookup_middle by done. cbn [run fst snd db store sent].
    by rewrite delete_last.
  - cbn [run outages db].
    destruct os as [|[m|] os].
    + destruct (IH (Done (find c flt limit s)) s [] pre sent0) as [es Hes].
      exists (Advance (length pre) None :: es). cbn [steps foldl step pool].
      rewrite list_lookup_middle by done. cbn [store sent pool].
      rewrite insert_last. exact Hes.
    + destruct (IH (Failed m) s os pre sent0) as [es Hes].
      exists (Advance (length pre) (Some m) :: es). cbn [steps foldl step pool].
      rewrite list_lookup_middle by done. cbn [store sent pool].
      rewrite insert_last. exact Hes.
    + destruct (IH (Done (find c flt limit s)) s os pre sent0) as [es Hes].
      exists (Advance (length pre) None :: es). cbn [steps foldl step pool].
      rewrite list_lookup_middle by done. cbn [store sent pool].
      rewrite insert_last. exact Hes.
  - cbn [run outages db insert_one].
    destruct os as [|[m|] os].
    + destruct (IH (Done (str_oid (next_oid s))) (insert_one c r s).2 [] pre sent0)
        as [es Hes].
      exists (Advance (length pre) None :: es). cbn [steps foldl step pool].
      rewrite list_lookup_middle by done. cbn [store sent pool insert_one].
      rewrite insert_last. exact Hes.
    + destruct (IH (Failed m) s os pre sent0) as [es Hes].
      exists (Advance (length pre) (Some m) :: es). cbn [steps foldl step pool].
      rewrite list_lookup_middle by done. cbn [store sent pool].
      rewrite insert_last. exact Hes.
    + destruct (IH (Done (str_oid (next_oid s))) (insert_one c r s).2 os pre sent0)
        as [es Hes].
      exists (Advance (length pre) None :: es). cbn [steps foldl step pool].
      rewrite list_lookup_middle by done. cbn [store sent pool insert_one].
      rewrite insert_last. exact Hes.
Qed.

Lemma in_turn_reachable s : in_turn s → reachable s.
Proof.
  intros Hs.
  assert (Hidle : ∃ es answered_so_far,
            steps (idle empty_store) es
            = {| store := s; pool := []; sent := answered_so_far |}).
  { induction Hs as [|s r os Hs (es & sent0 & Hes)].
    - by exists [], [].
    - destruct (run_as_steps (serve r) s os [] sent0) as [es' Hes'].
      exists (es ++ Arrive r :: es'), (sent0 ++ [(run (serve r) {| db := s; outages := os |}).1]).
      rewrite steps_app, Hes. exact Hes'. }
  destruct Hidle as (es & sent0 & Hes). exists es. by rewrite Hes.
Qed.

(** ** Login after signup *)

Lemma run_signup_returned payload w resp w1 :
  run (signup payload) w = (Returned resp, w1) →
  resp = <["user_id" := JValue (VStr (str_oid (next_oid (db w))))]>
           (<["email" := JValue (VStr (SignupRequest.email payload))]> ∅)
  ∧ db w1 = (insert_one "user"
               (signup_record (SignupRequest.email payload)
                  (SignupRequest.password payload)) (db w)).2.
Proof.
  unfold signup. rewrite run_bind, run_guarded_read.
  destruct (outages w) as [|[m|] os] eqn:Ho; [|done|];
    (destruct (find "user" _ 1 (db w)) as [|d ds] eqn:Hf; [|done]);
    rewrite run_bind, run_create_document; unfold answered; rewrite Ho;
    cbn [outages db tail].
  - by intros [= <- <-].
  - destruct os as [|[m|] os']; [|done|]; by intros [= <- <-].
Qed.

Lemma writes_only_anything {A : Type} (p : prog A) : writes_only (λ _ _, True) p.
Proof. induction p; cbn [writes_only]; auto. Qed.

Lemma served_after_keeps_documents s s' c d :
  served_after s s' → d ∈ collection c s → d ∈ collection c s'.
Proof.
  intros Hafter Hd. induction Hafter as [|s' r os Hafter IH]; [done|].
  apply (run_keeps (λ _ _, True) (λ s1, d ∈ collection c s1) (serve r));
    [|apply writes_only_anything|done].
  intros s1 c1 r1 Hs1 _. destruct (decide (c1 = c)) as [->|Hne].
  - rewrite collection_insert_one. apply elem_of_app. by left.
  - by rewrite collection_insert_one_ne.
Qed.

Lemma served_after_in_turn s s' : in_turn s → served_after s s' → in_turn s'.
Proof.
  intros Hs Hafter. induction Hafter as [|s' r os Hafter IH]; [done|].
  by apply in_turn_serve.
Qed.

(** C5 (as amended): on an available store, login answers 404 when no
    user record has the email; with [user] the first user record that has
    it, login answers 401 when its stored hash is not ["hash:"] followed by
    the password, and otherwise returns that record's identifier and the
    email.  A login with the email and password of a signup that has just
    succeeded returns the identifier that signup returned, and so does every
    later login as long as requests are served one after the other. *)
Theorem C5_login (w : World) (payload : LoginRequest.t) :
  available w →
  let email := LoginRequest.email payload in
  let password := LoginRequest.password payload in
  ((∀ d, d ∈ collection "user" (db w) → fields d !! "email" ≠ Some (VStr email)) →
   run (login payload) w = (Raised (HTTPException 404 "User not found"), w))
  ∧ (∀ user,
     head (filter (matches {["email" := VStr email]}) (collection "user" (db w)))
       = Some user →
     (get (fields user) "password_hash" ≠ VStr ("hash:" +:+ password) →
      run (login payload) w = (Raised (HTTPException 401 "Invalid credentials"), w))
     ∧ (get (fields user) "password_hash" = VStr ("hash:" +:+ password) →
        run (login payload) w
        = (Returned (<["user_id" := JValue (VStr (str_oid (oid user)))]>
                     (<["email" := JValue (VStr email)]> ∅)), w)))
  ∧ ((∀ d, d ∈ collection "user" (db w) → fields d !! "email" ≠ Some (VStr email)) →
     ∃ id w1,
       run (signup (SignupRequest.mk email password)) w
       = (Returned (<["user_id" := JValue (VStr id)]>
                    (<["email" := JValue (VStr email)]> ∅)), w1)
       ∧ run (login payload) w1
         = (Returned (<["user_id" := JValue (VStr id)]>
                      (<["email" := JValue (VStr email)]> ∅)), w1))
  ∧ (∀ s0 os id w1,
       in_turn s0 →
       run (signup (SignupRequest.mk email password)) {| db := s0; outages := os |}
       = (Returned (<["user_id" := JValue (VStr id)]>
                    (<["email" := JValue (VStr email)]> ∅)), w1) →
       served_after (db w1) (db w) →
       run (login payload) w
       = (Returned (<["user_id" := JValue (VStr id)]>
                    (<["email" := JValue (VStr email)]> ∅)), w)).
Proof.
  intros Hav email password. subst email password. split; [|split; [|split]].
  - intros Hfree. rewrite run_login_available by done.
    by rewrite (proj2 (find_nil_iff _ _ _ _) Hfree).
  - intros user Hhead.
    assert (Hfind : find "user" {["email" := VStr (LoginRequest.email payload)]} 1 (db w)
                    = [user]).
    { by rewrite find_one_head, Hhead. }
    assert (Hemail : get (fields user) "email" = VStr (LoginRequest.email payload)).
    { apply find_cons_matches in Hfind as (_ & _ & He). unfold get. by rewrite He. }
    split; intros Hpw; rewrite run_login_available by done;
      rewrite Hfind; destruct (decide _) as [Heq|Hne]; try done.
    by rewrite Hemail.
  - intros Hfree.
    eexists _, _. split.
    { exact (run_signup_free w
               (SignupRequest.mk (LoginRequest.email payload) (LoginRequest.password payload))
               Hav Hfree). }
    rewrite run_login_available by done. cbn [db SignupRequest.email SignupRequest.password].
    rewrite find_after_insert_fresh; [|done|apply email_of_dumped_user].
    cbn [fields oid]. rewrite password_hash_of_dumped_user.
    cbn [User.password_hash]. rewrite decide_True by done.
    by rewrite (get_email_of_dumped_user _).
  - intros s0 os id w1 Hs0 Hsignup Hafter.
    pose proof (in_turn_serve s0
                  (POST_auth_signup (SignupRequest.mk (LoginRequest.email payload)
                                       (LoginRequest.password payload))) os Hs0) as Hs1.
    cbn [serve] in Hs1. rewrite Hsignup in Hs1. cbn [snd] in Hs1.
    destruct (run_signup_returned _ _ _ _ Hsignup) as [Hresp Hdb].
    cbn [db SignupRequest.email SignupRequest.password] in Hresp, Hdb.
    assert (Hid : id = str_oid (next_oid s0)).
    { apply (f_equal (λ r : response, r !! "user_id")) in Hresp.
      rewrite !lookup_insert_eq in Hresp. by injection Hresp. }
    assert (Hd : Stored (next_oid s0)
                   (signup_record (LoginRequest.email payload)
                      (LoginRequest.password payload))
                 ∈ collection "user" (db w)).
    { apply (served_after_keeps_documents _ _ "user" _ Hafter).
      rewrite Hdb, collection_insert_one. apply elem_of_app. right.
      apply list_elem_of_here. }
    pose proof (login_reads_signup_record (db w) _ _ _
                  (served_after_in_turn _ _ Hs1 Hafter) Hd eq_refl) as Hlogin.
    cbn [oid] in Hlogin. rewrite Hid.
    destruct w as [s os']. unfold available in Hav. cbn [outages] in Hav. subst os'.
    destruct payload as [e p]. exact Hlogin.
Qed.

Lemma C5_witness :
  (run (login alice_login) (run (signup alice) fresh_world).2).1
  = Returned (<["user_id" := JValue (VStr "0")]>
              (<["email" := JValue (VStr "alice@example.com")]> ∅))
  ∧ (run (login alice_login) fresh_world).1
    = Raised (HTTPException 404 "User not found")
  ∧ (run (login (LoginRequest.mk "bob@example.com" "hunter2"))
         {| db := store_after_three; outages := [] |}).1
    = Returned (<["user_id" := JValue (VStr "1")]>
                (<["email" := JValue (VStr "bob@example.com")]> ∅)).
Proof.
  destruct (C5_login fresh_world alice_login eq_refl) as (Hnone & _ & Hboth & _).
  destruct (C5_login {| db := store_after_three; outages := [] |}
              (LoginRequest.mk "bob@example.com" "hunter2") eq_refl)
    as (_ & _ & _ & Hlater).
  split; [|split].
  - destruct Hboth as (id & w1 & Hsignup & Hlogin).
    { intros d Hd. by apply no_users_yet. }
    change (SignupRequest.mk (LoginRequest.email alice_login)
              (LoginRequest.password alice_login)) with alice in Hsignup.
    rewrite Hsignup. cbn [snd]. rewrite Hlogin. cbn [fst].
    assert (Hid : id = "0").
    { rewrite run_signup_free in Hsignup;
        [|done|intros d Hd; by apply no_users_yet].
      apply (f_equal (λ x : outcome response * World,
                        match x.1 with
                        | Returned r => r !! "user_id"
                        | Raised _ => None
                        end)) in Hsignup.
      cbn [fst] in Hsignup. rewrite !lookup_insert_eq in Hsignup.
      by injection Hsignup as <-. }
    by rewrite Hid.
  - rewrite Hnone; [reflexivity|]. intros d Hd. by apply no_users_yet.
  - rewrite (Hlater (db (run (serve (POST_auth_guest alice_guest))
                           {| db := empty_store; outages := [] |}).2)
               [] "1"
               (run (signup bob)
                  {| db := db (run (serve (POST_auth_guest alice_guest))
                                 {| db := empty_store; outages := [] |}).2;
                     outages := [] |}).2).
    + reflexivity.
    + apply in_turn_serve, in_turn_empty.
    + vm_compute. reflexivity.
    + apply (served_after_one _ _ (POST_auth_guest (GuestLoginRequest.mk "bob@example.com"))
               []).
      apply served_after_none.
Defined.

(** The last clause of C5 as the specification words it does not hold:
    when a signup and a guest login for one email are served at the same
    time, the signup is answered with its identifier, and a later login with
    the signup's email and password is answered 401. *)
Lemma C5_login_after_overlapping_signup :
  reachable (store (steps (idle empty_store) overlapping_requests))
  ∧ pool (steps (idle empty_store) overlapping_requests) = []
  ∧ sent (steps (idle empty_store) overlapping_requests) !! 0
    = Some (Returned (<["user_id" := JValue (VStr "1")]>
                      (<["email" := JValue (VStr "alice@example.com")]> ∅)))
  ∧ run (login alice_login)
        {| db := store (steps (idle empty_store) overlapping_requests); outages := [] |}
    = (Raised (HTTPException 401 "Invalid credentials"),
       {| db := store (steps (idle empty_store) overlapping_requests); outages := [] |}).
Proof.
  split; [by exists overlapping_requests|].
  split; [vm_compute; reflexivity|].
  split; vm_compute; reflexivity.
Qed.
